(** * tsr2: windowed transfer aggregation over a labeled edge cursor

    A shallow embedding of [src/tugraph/procedures/cpp/tsr2.cpp]: the
    [LabeledEdgeIterator] template, the two directional scans of [Process]
    and the request / response envelope around them.

    C++ [double] is Rocq's primitive binary64 [float]; [int64_t], [int16_t]
    and [uint16_t] are [Z] with the wrap-around written out; exceptions are
    a [result] type; the store calls made through the transaction are
    recorded in a trace. *)

From Stdlib Require Import ZArith Floats Uint63 Lia Bool Sorted.
From stdpp Require Import gmap strings list.

Set Warnings "-inexact-float".
Open Scope Z_scope.

(** ** Machine integers

    A value of width [w] is kept in range by reducing modulo [2 ^ w];
    the signed types are two's complement. *)

Definition wrap_unsigned (w x : Z) : Z := x mod 2 ^ w.
Definition wrap_signed (w x : Z) : Z := (x + 2 ^ (w - 1)) mod 2 ^ w - 2 ^ (w - 1).

Definition to_int64 (x : Z) : Z := wrap_signed 64 x.
Definition to_int16 (x : Z) : Z := wrap_signed 16 x.
Definition to_uint16 (x : Z) : Z := wrap_unsigned 16 x.

Definition in_int64 (x : Z) : bool := (- 2 ^ 63 <=? x) && (x <? 2 ^ 63).

(** ** Exceptions

    [JsonException] stands for what json::parse and parse_from_json throw,
    [NotFound] for a failed lookup in the store, [InvalidIterator] for a
    read through a cursor that is on no edge or vertex.  [OutOfFuel] is not
    a C++ exception: it marks a loop of the model that was given too few
    iterations, and [Process] never ends with it ([Process_total]). *)

Inductive exn :=
| JsonException (what : string)
| NotFound (what : string)
| InvalidIterator
| OutOfFuel.

Definition what (e : exn) : string :=
  match e with
  | JsonException w => w
  | NotFound w => w
  | InvalidIterator => "invalid iterator"
  | OutOfFuel => "out of fuel"
  end.

Inductive result (A : Type) :=
| Ok (a : A)
| Throw (e : exn).
Arguments Ok {A} a.
Arguments Throw {A} e.

Definition rbind {A B} (r : result A) (k : A -> result B) : result B :=
  match r with
  | Ok a => k a
  | Throw e => Throw e
  end.

Declare Scope result_scope.
Delimit Scope result_scope with result.
Notation "x <- r ;; k" := (rbind r (fun x => k))
  (at level 100, r at next level, right associativity) : result_scope.
Open Scope result_scope.

(** ** The store, as the procedure sees it *)

(** Modelled from the spec: an edge of the store (lgraph's storage engine is
    not part of the repository).  [e_src], [e_dst], [e_lid], [e_tid] and
    [e_eid] are the components of its locator (EdgeUid); [e_timestamp] and
    [e_amount] are the two properties read with GetField. *)
Record Edge := mkEdge {
  e_src : Z;
  e_dst : Z;
  e_lid : Z;
  e_tid : Z;
  e_eid : Z;
  e_timestamp : Z;
  e_amount : float
}.

Record EdgeUid := mkEdgeUid {
  uid_src : Z;
  uid_dst : Z;
  uid_lid : Z;
  uid_tid : Z;
  uid_eid : Z
}.

Inductive Direction := OutDir | InDir.

(** Modelled from the spec: the order of a vertex's edge list.  The label
    identifier is the primary key, the temporal identifier the secondary
    one, then the neighbour and the edge identifier. *)
Definition sort_key := (Z * Z * Z * Z)%type.

Definition edge_key (d : Direction) (e : Edge) : sort_key :=
  (e_lid e, e_tid e, match d with OutDir => e_dst e | InDir => e_src e end, e_eid e).

Definition uid_key (d : Direction) (u : EdgeUid) : sort_key :=
  (uid_lid u, uid_tid u, match d with OutDir => uid_dst u | InDir => uid_src u end, uid_eid u).

Definition key_ltb (a b : sort_key) : bool :=
  let '(a1, a2, a3, a4) := a in
  let '(b1, b2, b3, b4) := b in
  (a1 <? b1) || ((a1 =? b1) &&
  ((a2 <? b2) || ((a2 =? b2) &&
  ((a3 <? b3) || ((a3 =? b3) && (a4 <? b4)))))).

(** Position of the first edge whose key is not below [k]. *)
Fixpoint lower_bound (d : Direction) (k : sort_key) (es : list Edge) : nat :=
  match es with
  | [] => O
  | e :: es' => if key_ltb (edge_key d e) k then S (lower_bound d k es') else O
  end.

(** Modelled from the spec: the raw directional cursor over all edges of
    one vertex (OutEdgeIterator / InEdgeIterator). *)
Record EdgeIterator (d : Direction) := mkEdgeIterator {
  it_edges : list Edge;
  it_pos : nat
}.
Arguments mkEdgeIterator {d} _ _.
Arguments it_edges {d} _.
Arguments it_pos {d} _.

Definition OutEdgeIterator := EdgeIterator OutDir.
Definition InEdgeIterator := EdgeIterator InDir.

Section RawCursor.
Context {d : Direction}.

Definition current (eit : EdgeIterator d) : option Edge :=
  it_edges eit !! it_pos eit.

Definition EIT_IsValid (eit : EdgeIterator d) : bool :=
  match current eit with Some _ => true | None => false end.

(** Modelled from the spec: Next() moves one position forward and reports
    the new validity; on an invalid cursor it stays where it is. *)
Definition EIT_Next (eit : EdgeIterator d) : bool * EdgeIterator d :=
  if EIT_IsValid eit then
    let eit' := mkEdgeIterator (it_edges eit) (S (it_pos eit)) in
    (EIT_IsValid eit', eit')
  else (false, eit).

Definition EIT_GetLabelId (eit : EdgeIterator d) : result Z :=
  match current eit with
  | Some e => Ok (e_lid e)
  | None => Throw InvalidIterator
  end.

(** Modelled from the spec: GetField(TIMESTAMP).AsInt64() and
    GetField(AMOUNT).AsDouble().  Every edge carries both properties with
    these types; a read through an invalid cursor raises. *)
Definition EIT_GetTimestamp (eit : EdgeIterator d) : result Z :=
  match current eit with
  | Some e => Ok (e_timestamp e)
  | None => Throw InvalidIterator
  end.

Definition EIT_GetAmount (eit : EdgeIterator d) : result float :=
  match current eit with
  | Some e => Ok (e_amount e)
  | None => Throw InvalidIterator
  end.

(** Modelled from the spec: Goto(euid, nearest = true) lands on the first
    edge at or after the locator. *)
Definition EIT_Goto (eit : EdgeIterator d) (euid : EdgeUid) : EdgeIterator d :=
  mkEdgeIterator (it_edges eit) (lower_bound d (uid_key d euid) (it_edges eit)).

Definition remaining (eit : EdgeIterator d) : nat :=
  (length (it_edges eit) - it_pos eit)%nat.
End RawCursor.

(** ** LabeledEdgeIterator (tsr2.cpp, lines 31-60)

    The template parameter EIT is the direction of the raw cursor.  The two
    Reset overloads are not called by [Process] and are left out. *)

Record LabeledEdgeIterator (d : Direction) := mkLabeled {
  base : EdgeIterator d;
  lid_ : Z;
  valid_ : bool
}.
Arguments mkLabeled {d} _ _ _.
Arguments base {d} _.
Arguments lid_ {d} _.
Arguments valid_ {d} _.

Section Labeled.
Context {d : Direction}.

(** [EIT::IsValid() && EIT::GetLabelId() == lid_], with the short circuit. *)
Definition label_matches (eit : EdgeIterator d) (ok : bool) (lid : Z) : result bool :=
  if ok then l <- EIT_GetLabelId eit ;; Ok (l =? lid) else Ok false.

Definition LabeledEdgeIterator_new (eit : EdgeIterator d) (lid : Z)
  : result (LabeledEdgeIterator d) :=
  v <- label_matches eit (EIT_IsValid eit) lid ;;
  Ok (mkLabeled eit lid v).

Definition IsValid (it : LabeledEdgeIterator d) : bool := valid_ it.

Definition Next (it : LabeledEdgeIterator d) : result (bool * LabeledEdgeIterator d) :=
  if negb (valid_ it) then Ok (false, it)
  else
    let '(moved, eit') := EIT_Next (base it) in
    v <- label_matches eit' moved (lid_ it) ;;
    Ok (v, mkLabeled eit' (lid_ it) v).
End Labeled.

(** ** Rounding

    Modelled from the spec: std::round of <cmath> is library code.  It
    returns the integer nearest to its argument, halfway cases away from
    zero, and leaves zeros, infinities and NaN as they are.  A finite
    double with a non-negative exponent is an integer already; otherwise
    the magnitude [m * 2 ^ e] is shifted right with the half added. *)
Definition round (x : float) : float :=
  match Prim2SF x with
  | S754_finite s m e =>
      if 0 <=? e then x
      else
        let n := (Z.pos m + 2 ^ (- e - 1)) / 2 ^ (- e) in
        let r := PrimFloat.of_uint63 (Uint63.of_Z n) in
        if s then (- r)%float else r
  | _ => x
  end.

(** [std::round(v * 1000.0) / 1000] (lines 133-134 and 157-158). *)
Definition round3 (v : float) : float := (round (v * 1000) / 1000)%float.

(** ** The windowed aggregation (tsr2.cpp, lines 114-159) *)

Record Acc := mkAcc {
  acc_sum : float;
  acc_max : float;
  acc_count : Z
}.

Definition acc0 : Acc := mkAcc 0%float 0%float 0.

Inductive flow := Continue | Break.

(** Lines 127-131 and 151-155: an edge inside the window is counted.  The
    count is an int64_t; its increment wraps. *)
Definition accumulate (a : Acc) (amount : float) : Acc :=
  mkAcc (acc_sum a + amount)%float
        (if (acc_max a <? amount)%float then amount else acc_max a)
        (to_int64 (acc_count a + 1)).

(** The body of either [for] loop, from the two field reads on.  The two
    loops of the source are the same text over cursors of the two
    directions. *)
Definition scan_body (start_time end_time timestamp : Z) (amount : float) (a : Acc)
  : flow * Acc :=
  if timestamp =? start_time then (Continue, a)
  else if timestamp >=? end_time then (Break, a)
  else (Continue, accumulate a amount).

(** [for (eit = ...; eit.IsValid(); eit.Next()) { ... }], from a given cursor
    on; the fuel bounds the number of iterations. *)
Fixpoint scan_loop {d : Direction} (fuel : nat) (start_time end_time : Z)
    (eit : LabeledEdgeIterator d) (a : Acc) : result (Acc * LabeledEdgeIterator d) :=
  match fuel with
  | O => Throw OutOfFuel
  | S fuel' =>
      if IsValid eit then
        timestamp <- EIT_GetTimestamp (base eit) ;;
        amount <- EIT_GetAmount (base eit) ;;
        match scan_body start_time end_time timestamp amount a with
        | (Break, a') => Ok (a', eit)
        | (Continue, a') =>
            p <- Next eit ;;
            scan_loop fuel' start_time end_time (snd p) a'
        end
      else Ok (a, eit)
  end.

(** One more than the number of edges left is always enough fuel
    (see [scan_loop_fuel]). *)
Definition scan {d : Direction} (start_time end_time : Z) (eit : LabeledEdgeIterator d)
  : result (Acc * LabeledEdgeIterator d) :=
  scan_loop (S (remaining (base eit))) start_time end_time eit acc0.

(** Lines 133-135 and 157-159. *)
Definition finalize (a : Acc) : Acc :=
  let sum := round3 (acc_sum a) in
  let max := round3 (acc_max a) in
  mkAcc sum (if acc_count a =? 0 then (-1)%float else max) (acc_count a).

(** ** Requests and responses *)

#[local] Unset Elimination Schemes.
Inductive json :=
| JNull
| JBool (b : bool)
| JInt (z : Z)
| JFloat (f : float)
| JStr (s : string)
| JArr (items : list json)
| JObj (fields : list (string * json)).
#[local] Set Elimination Schemes.

Fixpoint json_field (key : string) (fields : list (string * json)) : option json :=
  match fields with
  | [] => None
  | (k, v) :: rest => if String.eqb k key then Some v else json_field key rest
  end.

(** Modelled from the spec: parse_from_json of lgraph_utils.h is library
    code.  All three fields are required and the failure of any of them is
    fatal: a field is read when the request is an object that holds an
    integer in the int64_t range under the key, and raises otherwise. *)
Definition parse_from_json (key : string) (input : json) : result Z :=
  match input with
  | JObj fields =>
      match json_field key fields with
      | Some (JInt z) =>
          if in_int64 z then Ok z
          else Throw (JsonException ("number out of range: " +:+ key))
      | Some _ => Throw (JsonException ("type must be number: " +:+ key))
      | None => Throw (JsonException ("missing field: " +:+ key))
      end
  | _ => Throw (JsonException "request is not an object")
  end.

Inductive FieldData :=
| FD_Double (v : float)
| FD_Int64 (v : Z).

Inductive LGraphType := DOUBLE | INTEGER.

Definition Record_ := list (string * FieldData).

Inductive Response :=
| JsonMsg (msg : string)
| ResultDump (header : list (string * LGraphType)) (records : list Record_).

(** What a call of [Process] leaves behind: the returned flag with the
    response written, or an exception that left the function. *)
Inductive outcome :=
| Returned (ok : bool) (response : Response)
| Raised (e : exn).

(** ** The store behind the transaction *)

Record VertexData := mkVertexData {
  v_out : list Edge;
  v_in : list Edge
}.

(** Modelled from the spec: the part of the graph store the procedure
    reads.  A unique index maps (label, field, value) to a vertex
    identifier, the schema maps an edge type name to its label identifier,
    and every vertex has its outgoing and its incoming edges in storage
    order. *)
Record GraphDB := mkGraphDB {
  db_unique_index : gmap (string * string * Z) Z;
  db_edge_labels : gmap string Z;
  db_vertices : gmap Z VertexData
}.

Inductive StoreCall :=
| Call_CreateReadTxn
| Call_GetVertexByUniqueIndex (label field : string) (value : Z)
| Call_GetVertexIterator
| Call_VertexGoto (vid : Z)
| Call_GetEdgeLabelId (label : string)
| Call_GetOutEdgeIterator (vid : Z) (euid : EdgeUid)
| Call_GetInEdgeIterator (vid : Z) (euid : EdgeUid).

(** Computations inside the read transaction: they may raise, and every
    call on the database, on the transaction or on a vertex iterator is
    appended to the trace.  The steps and the field reads of an edge cursor
    are functions of the cursor value and leave no entry. *)
Definition Txn (A : Type) : Type := list StoreCall -> list StoreCall * result A.

Definition tret {A} (a : A) : Txn A := fun tr => (tr, Ok a).

Definition tbind {A B} (m : Txn A) (k : A -> Txn B) : Txn B :=
  fun tr =>
    match m tr with
    | (tr', Ok a) => k a tr'
    | (tr', Throw e) => (tr', Throw e)
    end.

Definition store_call {A} (c : StoreCall) (r : result A) : Txn A :=
  fun tr => (tr ++ [c], r).

Definition lift {A} (r : result A) : Txn A := fun tr => (tr, r).

Notation "x <~ m ;; k" := (tbind m (fun x => k))
  (at level 100, m at next level, right associativity) : result_scope.

Record VertexIterator := mkVertexIterator {
  vit_vertices : gmap Z VertexData;
  vit_cur : option Z
}.

Definition least_vid (vs : gmap Z VertexData) : option Z :=
  map_fold (fun k _ acc =>
              match acc with
              | None => Some k
              | Some k' => Some (Z.min k k')
              end) None vs.

Definition vit_IsValid (vit : VertexIterator) : bool :=
  match vit_cur vit with
  | Some vid => match vit_vertices vit !! vid with Some _ => true | None => false end
  | None => false
  end.

Definition vit_GetId (vit : VertexIterator) : result Z :=
  match vit_cur vit with
  | Some vid => if vit_IsValid vit then Ok vid else Throw InvalidIterator
  | None => Throw InvalidIterator
  end.

Definition vit_data (vit : VertexIterator) : result (Z * VertexData) :=
  match vit_cur vit with
  | Some vid =>
      match vit_vertices vit !! vid with
      | Some v => Ok (vid, v)
      | None => Throw InvalidIterator
      end
  | None => Throw InvalidIterator
  end.

Section Transaction.
Variable db : GraphDB.

Definition CreateReadTxn : Txn unit := store_call Call_CreateReadTxn (Ok tt).

(** Modelled from the spec: GetVertexByUniqueIndex of the transaction is
    library code.  It returns the vertex under the index, and raises
    NotFound when the index has none for the value. *)
Definition GetVertexByUniqueIndex (label field : string) (value : Z) : Txn VertexIterator :=
  store_call (Call_GetVertexByUniqueIndex label field value)
    match db_unique_index db !! (label, field, value) with
    | Some vid => Ok (mkVertexIterator (db_vertices db) (Some vid))
    | None => Throw (NotFound "no vertex found with the index value")
    end.

Definition GetVertexIterator : Txn VertexIterator :=
  store_call Call_GetVertexIterator
    (Ok (mkVertexIterator (db_vertices db) (least_vid (db_vertices db)))).

(** vit.Goto(vid), with nearest = false. *)
Definition vit_Goto (vit : VertexIterator) (vid : Z) : Txn VertexIterator :=
  store_call (Call_VertexGoto vid)
    (Ok (mkVertexIterator (vit_vertices vit)
           match vit_vertices vit !! vid with Some _ => Some vid | None => None end)).

(** Modelled from the spec: GetEdgeLabelId of the transaction is library
    code.  The name is resolved to its label identifier, and the call
    raises NotFound when the edge type is not declared. *)
Definition GetEdgeLabelId (label : string) : Txn Z :=
  store_call (Call_GetEdgeLabelId label)
    match db_edge_labels db !! label with
    | Some lid => Ok lid
    | None => Throw (NotFound "edge label does not exist")
    end.

(** Modelled from the spec: vit.GetOutEdgeIterator(euid, true) and
    vit.GetInEdgeIterator(euid, true) give the cursor over the vertex's
    edges of the direction, at the first edge at or after the locator. *)
Definition vit_GetOutEdgeIterator (vit : VertexIterator) (euid : EdgeUid) : Txn OutEdgeIterator :=
  fun tr =>
    match vit_data vit with
    | Ok (vid, v) =>
        (tr ++ [Call_GetOutEdgeIterator vid euid],
         Ok (EIT_Goto (mkEdgeIterator (v_out v) O) euid))
    | Throw e => (tr, Throw e)
    end.

Definition vit_GetInEdgeIterator (vit : VertexIterator) (euid : EdgeUid) : Txn InEdgeIterator :=
  fun tr =>
    match vit_data vit with
    | Ok (vid, v) =>
        (tr ++ [Call_GetInEdgeIterator vid euid],
         Ok (EIT_Goto (mkEdgeIterator (v_in v) O) euid))
    | Throw e => (tr, Throw e)
    end.

(** Lines 62-69: the factory functions over a vertex iterator.  [lid] is a
    uint16_t parameter.  The two overloads over a transaction (lines
    71-81) are not called by [Process] and are left out. *)
Definition LabeledOutEdgeIterator (vit : VertexIterator) (lid tid : Z)
  : Txn (LabeledEdgeIterator OutDir) :=
  let lid := to_uint16 lid in
  eit <~ vit_GetOutEdgeIterator vit (mkEdgeUid 0 0 lid tid 0) ;;
  lift (LabeledEdgeIterator_new eit lid).

Definition LabeledInEdgeIterator (vit : VertexIterator) (lid tid : Z)
  : Txn (LabeledEdgeIterator InDir) :=
  let lid := to_uint16 lid in
  eit <~ vit_GetInEdgeIterator vit (mkEdgeUid 0 0 lid tid 0) ;;
  lift (LabeledEdgeIterator_new eit lid).
End Transaction.

(** ** Process (tsr2.cpp, lines 83-178) *)

Definition ACCOUNT_ID : string := "id".
Definition ACCOUNT_LABEL : string := "Account".
Definition TRANSFER_LABEL : string := "transfer".

Definition result_header : list (string * LGraphType) :=
  [("sumEdge1Amount", DOUBLE); ("maxEdge1Amount", DOUBLE); ("numEdge1", INTEGER);
   ("sumEdge2Amount", DOUBLE); ("maxEdge2Amount", DOUBLE); ("numEdge2", INTEGER)].

Definition result_record (o i : Acc) : Record_ :=
  [("sumEdge1Amount", FD_Double (acc_sum o));
   ("maxEdge1Amount", FD_Double (acc_max o));
   ("numEdge1", FD_Int64 (acc_count o));
   ("sumEdge2Amount", FD_Double (acc_sum i));
   ("maxEdge2Amount", FD_Double (acc_max i));
   ("numEdge2", FD_Int64 (acc_count i))].

Section Process.
(** json::parse of nlohmann's library, which is not part of the
    repository: the text of a request to its value, or a parse error. *)
Variable json_parse : string -> result json.

(** Lines 92-96, the body of the [try] block. *)
Definition parse_request (request : string) : result (Z * Z * Z) :=
  input <- json_parse request ;;
  id <- parse_from_json "id" input ;;
  start_time <- parse_from_json "startTime" input ;;
  end_time <- parse_from_json "endTime" input ;;
  Ok (id, start_time, end_time).

(** Lines 103-159: both directional aggregations inside one read
    transaction, each finalized. *)
Definition aggregate (db : GraphDB) (id start_time end_time : Z) : Txn (Acc * Acc) :=
  _ <~ CreateReadTxn ;;
  account <~ GetVertexByUniqueIndex db ACCOUNT_LABEL ACCOUNT_ID id ;;
  vit <~ GetVertexIterator db ;;
  vid <~ lift (vit_GetId account) ;;
  vit <~ vit_Goto vit vid ;;
  label <~ GetEdgeLabelId db TRANSFER_LABEL ;;
  let transfer_id := to_int16 label in
  eit <~ LabeledOutEdgeIterator vit transfer_id start_time ;;
  out <~ lift (scan start_time end_time eit) ;;
  let acc_out := finalize (fst out) in
  eit <~ LabeledInEdgeIterator vit transfer_id start_time ;;
  inc <~ lift (scan start_time end_time eit) ;;
  let acc_in := finalize (fst inc) in
  tret (acc_out, acc_in).

Definition Process (db : GraphDB) (request : string) : outcome * list StoreCall :=
  match parse_request request with
  | Throw e => (Returned false (JsonMsg ("json parse error: " +:+ what e)), [])
  | Ok (id, start_time, end_time) =>
      match aggregate db id start_time end_time [] with
      | (tr, Ok (acc_out, acc_in)) =>
          (Returned true (ResultDump result_header [result_record acc_out acc_in]), tr)
      | (tr, Throw e) => (Raised e, tr)
      end
  end.
End Process.

(** ** The scans as list programs

    What a scan does, read off the edge list: [visit] walks the edges from
    the cursor on and returns those it counts together with the number of
    Next() calls that moved the cursor. *)

Definition accum (a : Acc) (e : Edge) : Acc := accumulate a (e_amount e).

Fixpoint visit (lid start_time end_time : Z) (es : list Edge) : list Edge * nat :=
  match es with
  | [] => ([], O)
  | e :: es' =>
      if e_lid e =? lid then
        if e_timestamp e =? start_time then
          let '(c, n) := visit lid start_time end_time es' in (c, S n)
        else if e_timestamp e >=? end_time then ([], O)
        else
          let '(c, n) := visit lid start_time end_time es' in (e :: c, S n)
      else ([], O)
  end.

(** The label the scans look for, after the two conversions of lines 111
    and 117. *)
Definition scan_label (label : Z) : Z := to_uint16 (to_int16 label).

(** Where the seek of a scan lands in an edge list. *)
Definition seek_pos (d : Direction) (lid tid : Z) (es : list Edge) : nat :=
  lower_bound d (lid, tid, 0, 0) es.

(** The edges a directional scan counts. *)
Definition window (d : Direction) (lid start_time end_time : Z) (es : list Edge) : list Edge :=
  fst (visit lid start_time end_time (drop (seek_pos d lid start_time es) es)).

Definition label_at (es : list Edge) (pos : nat) (lid : Z) : bool :=
  match es !! pos with
  | Some e => e_lid e =? lid
  | None => false
  end.

(** The validity flag of a labeled cursor agrees with its raw cursor. *)
Definition consistent {d : Direction} (it : LabeledEdgeIterator d) : Prop :=
  valid_ it = label_at (it_edges (base it)) (it_pos (base it)) (lid_ it).

(** [n] calls of Next in a row. *)
Fixpoint nexts {d : Direction} (n : nat) (it : LabeledEdgeIterator d)
  : result (LabeledEdgeIterator d) :=
  match n with
  | O => Ok it
  | S n' => p <- Next it ;; nexts n' (snd p)
  end.

(** What [Process] emitted, when it returned a record. *)
Definition emitted (o : outcome * list StoreCall) : option Record_ :=
  match fst o with
  | Returned true (ResultDump _ [r]) => Some r
  | _ => None
  end.

Fixpoint get_field (name : string) (r : Record_) : option FieldData :=
  match r with
  | [] => None
  | (k, v) :: rest => if String.eqb k name then Some v else get_field name rest
  end.

Definition out_fields (r : Record_) : option FieldData * option FieldData * option FieldData :=
  (get_field "sumEdge1Amount" r, get_field "maxEdge1Amount" r, get_field "numEdge1" r).

Definition in_fields (r : Record_) : option FieldData * option FieldData * option FieldData :=
  (get_field "sumEdge2Amount" r, get_field "maxEdge2Amount" r, get_field "numEdge2" r).

(** The store calls of a query, up to the point where it may fail. *)
Definition trace_lookup (id : Z) : list StoreCall :=
  [Call_CreateReadTxn; Call_GetVertexByUniqueIndex ACCOUNT_LABEL ACCOUNT_ID id].

Definition trace_label (id vid : Z) : list StoreCall :=
  trace_lookup id ++ [Call_GetVertexIterator; Call_VertexGoto vid;
                      Call_GetEdgeLabelId TRANSFER_LABEL].

Definition trace_full (id vid lid start_time : Z) : list StoreCall :=
  trace_label id vid
  ++ [Call_GetOutEdgeIterator vid (mkEdgeUid 0 0 lid start_time 0);
      Call_GetInEdgeIterator vid (mkEdgeUid 0 0 lid start_time 0)].

(** The accumulators a directional scan ends with, before [finalize]. *)
Definition raw (d : Direction) (lid start_time end_time : Z) (es : list Edge) : Acc :=
  fold_left accum (window d lid start_time end_time es) acc0.

(** Not negative: the sign bit is clear (NaN has none). *)
Definition sf_not_negative (x : spec_float) : bool :=
  match x with
  | S754_nan => true
  | S754_zero s | S754_infinity s | S754_finite s _ _ => negb s
  end.

Definition not_negative (x : float) : bool := sf_not_negative (Prim2SF x).

(** Not on the open start of the window. *)
Definition not_start (start_time : Z) (e : Edge) : Prop := e_timestamp e <> start_time.

#[local] Instance not_start_dec start_time e : Decision (not_start start_time e).
Proof. unfold not_start. apply _. Defined.

(** The edge list and the fields of the answer that belong to a direction. *)
Definition dir_edges (d : Direction) (v : VertexData) : list Edge :=
  match d with OutDir => v_out v | InDir => v_in v end.

Definition max_field (d : Direction) : string :=
  match d with OutDir => "maxEdge1Amount" | InDir => "maxEdge2Amount" end.

Definition num_field (d : Direction) : string :=
  match d with OutDir => "numEdge1" | InDir => "numEdge2" end.

Definition dir_fields (d : Direction) (r : Record_)
  : option FieldData * option FieldData * option FieldData :=
  match d with OutDir => out_fields r | InDir => in_fields r end.

(** A field is well formed when the request is an object that holds an
    integer of the int64_t range under the key. *)
Definition well_formed_field (key : string) (input : json) : bool :=
  match input with
  | JObj fields =>
      match json_field key fields with
      | Some (JInt z) => in_int64 z
      | _ => false
      end
  | _ => false
  end.

Definition well_formed_request (input : json) : bool :=
  well_formed_field "id" input
  && well_formed_field "startTime" input
  && well_formed_field "endTime" input.

(** Every entry of a unique index points to a vertex of the store. *)
Definition index_sound (db : GraphDB) : Prop :=
  forall key vid,
    db_unique_index db !! key = Some vid -> is_Some (db_vertices db !! vid).

(** The spec's words, taken exactly: a finite double [m * 2 ^ e] is rounded
    to three decimals, half-up on the magnitude, in integer arithmetic;
    [milli_half_up] is the rounded value in thousandths. *)
Definition milli_half_up (m : positive) (e : Z) : Z :=
  if 0 <=? e then Z.pos m * 2 ^ e * 1000
  else (2 * 1000 * Z.pos m + 2 ^ (- e)) / (2 * 2 ^ (- e)).

(** The double nearest to [k / 1000]: the correctly rounded quotient of the
    two integers. *)
Definition nearest_double_of_milli (s : bool) (k : Z) : float :=
  match k with
  | Z.pos p => SF2Prim (SFdiv prec emax (S754_finite s p 0) (S754_finite false 1000 0))
  | _ => SF2Prim (S754_zero s)
  end.

Definition half_up_3_decimals (v : float) : float :=
  match Prim2SF v with
  | S754_finite s m e => nearest_double_of_milli s (milli_half_up m e)
  | _ => v
  end.

(** Inside the open window of a query, with the label the scan looks for. *)
Definition in_window (lid start_time end_time : Z) (e : Edge) : Prop :=
  e_lid e = lid /\ start_time < e_timestamp e < end_time.

#[local] Instance in_window_dec lid start_time end_time e :
  Decision (in_window lid start_time end_time e).
Proof. unfold in_window. apply _. Defined.

Definition key_le (d : Direction) (a b : Edge) : Prop :=
  key_ltb (edge_key d b) (edge_key d a) = false.

(** The store's invariant on an edge list: sorted by key, and the temporal
    key of every edge is its timestamp. *)
Definition store_ordered (d : Direction) (es : list Edge) : Prop :=
  StronglySorted (key_le d) es /\ Forall (fun e => e_tid e = e_timestamp e) es.

(** At or after the locator of the seek, as far as label and temporal key
    tell. *)
Definition after_seek (lid start_time : Z) (e : Edge) : Prop :=
  lid < e_lid e \/ (e_lid e = lid /\ start_time <= e_tid e).

(** ** Reset and the factories over a transaction (tsr2.cpp, lines 49-59 and 71-81) *)

Definition to_uint64 (x : Z) : Z := wrap_unsigned 64 x.

Section Reposition.
Context {d : Direction}.

(** Goto(euid, true) of the raw cursor is library code, and with a locator
    of another vertex it leaves the edge list the cursor was on: it is
    taken as it comes, a function from the cursor and the locator to the
    cursor after the seek. *)
Variable Goto : EdgeIterator d -> EdgeUid -> EdgeIterator d.

(** Reset(size_t vid, uint16_t lid, int64_t tid), lines 51-59.  The locator
    has the vertex as source for an outgoing cursor and as destination for
    an incoming one; its vertex fields are int64_t. *)
Definition Reset (it : LabeledEdgeIterator d) (vid lid tid : Z)
  : result (LabeledEdgeIterator d) :=
  let vid := to_uint64 vid in
  let lid := to_uint16 lid in
  let eit' :=
    match d with
    | OutDir => Goto (base it) (mkEdgeUid (to_int64 vid) 0 lid tid 0)
    | InDir => Goto (base it) (mkEdgeUid 0 (to_int64 vid) lid tid 0)
    end in
  v <- label_matches eit' (EIT_IsValid eit') lid ;;
  Ok (mkLabeled eit' lid v).

(** Reset(VertexIterator& vit, uint16_t lid), line 49: the vertex of the
    iterator, with the default tid. *)
Definition Reset_vit (it : LabeledEdgeIterator d) (vit : VertexIterator) (lid : Z)
  : result (LabeledEdgeIterator d) :=
  vid <- vit_GetId vit ;;
  Reset it vid lid 0.
End Reposition.

Section TransactionFactories.
(** txn.GetOutEdgeIterator(euid, true) and txn.GetInEdgeIterator(euid, true)
    are library code: each is taken as a store call that gives a raw cursor
    or raises. *)
Variable txn_GetOutEdgeIterator : EdgeUid -> Txn OutEdgeIterator.
Variable txn_GetInEdgeIterator : EdgeUid -> Txn InEdgeIterator.

(** Lines 71-75. *)
Definition LabeledOutEdgeIterator_txn (vid lid tid : Z) : Txn (LabeledEdgeIterator OutDir) :=
  let lid := to_uint16 lid in
  eit <~ txn_GetOutEdgeIterator (mkEdgeUid vid 0 lid tid 0) ;;
  lift (LabeledEdgeIterator_new eit lid).

(** Lines 77-81. *)
Definition LabeledInEdgeIterator_txn (vid lid tid : Z) : Txn (LabeledEdgeIterator InDir) :=
  let lid := to_uint16 lid in
  eit <~ txn_GetInEdgeIterator (mkEdgeUid 0 vid lid tid 0) ;;
  lift (LabeledEdgeIterator_new eit lid).
End TransactionFactories.

(** The locator Reset seeks to. *)
Definition reset_locator (d : Direction) (vid lid tid : Z) : EdgeUid :=
  match d with
  | OutDir => mkEdgeUid vid 0 (lid mod 65536) tid 0
  | InDir => mkEdgeUid 0 vid (lid mod 65536) tid 0
  end.

(** The sum field of a direction. *)
Definition sum_field (d : Direction) : string :=
  match d with OutDir => "sumEdge1Amount" | InDir => "sumEdge2Amount" end.

Definition is_NaN (x : float) : Prop := Prim2SF x = S754_nan.

(** The left-to-right sum of the amounts, as the loop adds them. *)
Definition sum_amounts (es : list Edge) : float :=
  fold_left (fun s e => (s + e_amount e)%float) es 0%float.

Definition field_type (f : FieldData) : LGraphType :=
  match f with
  | FD_Double _ => DOUBLE
  | FD_Int64 _ => INTEGER
  end.

(** The order of the non-NaN doubles, as a key into triples of integers
    compared lexicographically. *)
Definition sf_key (x : spec_float) : Z * Z * Z :=
  match x with
  | S754_infinity true => (-2, 0, 0)
  | S754_finite true m e => (-1, - e, - Z.pos m)
  | S754_zero _ => (0, 0, 0)
  | S754_nan => (0, 0, 0)
  | S754_finite false m e => (1, e, Z.pos m)
  | S754_infinity false => (2, 0, 0)
  end.

Definition lex_lt (a b : Z * Z * Z) : Prop :=
  let '(a1, a2, a3) := a in
  let '(b1, b2, b3) := b in
  a1 < b1 \/ (a1 = b1 /\ (a2 < b2 \/ (a2 = b2 /\ a3 < b3))).

(** An edge exactly on a timestamp, with the label. *)
Definition at_time (lid t : Z) (e : Edge) : Prop := e_lid e = lid /\ e_timestamp e = t.

#[local] Instance at_time_dec lid t e : Decision (at_time lid t e).
Proof. unfold at_time. apply _. Defined.

(** A number that is not negative: +0, a positive finite double or
    +infinity. *)
Definition sf_plain (x : spec_float) : bool :=
  match x with
  | S754_zero false | S754_infinity false | S754_finite false _ _ => true
  | _ => false
  end.

Definition plain (x : float) : bool := sf_plain (Prim2SF x).

(** ** Concrete stores used by the examples *)

(** A transfer edge (label 3) from vertex 7. *)
Definition transfer_out (dst eid timestamp : Z) (amount : float) : Edge :=
  mkEdge 7 dst 3 timestamp eid timestamp amount.

(** A transfer edge (label 3) into vertex 7. *)
Definition transfer_in (src eid timestamp : Z) (amount : float) : Edge :=
  mkEdge src 7 3 timestamp eid timestamp amount.

(** The vertex a request asks about: the one the Account index on id gives
    for the id of the request (line 106), when the request parses and the
    id is known. *)
Definition queried_vertex (json_parse : string -> result json) (db : GraphDB)
    (request : string) : option Z :=
  match parse_request json_parse request with
  | Ok (id, _, _) => db_unique_index db !! (ACCOUNT_LABEL, ACCOUNT_ID, id)
  | Throw _ => None
  end.

Definition demo_db (outs ins : list Edge) : GraphDB :=
  mkGraphDB (<[(ACCOUNT_LABEL, ACCOUNT_ID, 42) := 7]> ∅)
            (<[TRANSFER_LABEL := 3]> ∅)
            (<[7 := mkVertexData outs ins]> ∅).

(** A store with the account 42 at vertex 7 and a second vertex 8, the
    other end of the edges of vertex 7: [outs8] are the outgoing edges of
    vertex 8 and [ins8] its incoming ones. *)
Definition demo_db_pair (outs ins outs8 ins8 : list Edge) : GraphDB :=
  mkGraphDB (<[(ACCOUNT_LABEL, ACCOUNT_ID, 42) := 7]> ∅)
            (<[TRANSFER_LABEL := 3]> ∅)
            (<[7 := mkVertexData outs ins]> (<[8 := mkVertexData outs8 ins8]> ∅)).

(** A parser that reads every text as one given value. *)
Definition parse_as (input : json) : string -> result json := fun _ => Ok input.

Definition demo_request (id start_time end_time : Z) : json :=
  JObj [("id", JInt id); ("startTime", JInt start_time); ("endTime", JInt end_time)].

(** * Properties *)

(** ** The labeled cursor *)

Section CursorFacts.
Context {d : Direction}.
Implicit Types (eit : EdgeIterator d) (it : LabeledEdgeIterator d).

Lemma EIT_IsValid_current eit :
  EIT_IsValid eit = true <-> exists e, current eit = Some e.
Proof.
  unfold EIT_IsValid. destruct (current eit) as [e|]; split.
  - eauto.
  - reflexivity.
  - discriminate.
  - intros [e He]. discriminate.
Qed.

Lemma EIT_Next_valid es pos e :
  es !! pos = Some e ->
  EIT_Next (@mkEdgeIterator d es pos)
  = (EIT_IsValid (@mkEdgeIterator d es (S pos)), mkEdgeIterator es (S pos)).
Proof.
  intros He. unfold EIT_Next. unfold EIT_IsValid at 1. unfold current. simpl.
  rewrite He. reflexivity.
Qed.

Lemma EIT_Next_invalid es pos :
  es !! pos = None ->
  EIT_Next (@mkEdgeIterator d es pos) = (false, mkEdgeIterator es pos).
Proof.
  intros He. unfold EIT_Next, EIT_IsValid, current. simpl. rewrite He. reflexivity.
Qed.

Lemma label_matches_valid eit lid :
  label_matches eit (EIT_IsValid eit) lid
  = Ok (label_at (it_edges eit) (it_pos eit) lid).
Proof.
  unfold label_matches, EIT_IsValid, EIT_GetLabelId, label_at, current.
  destruct (it_edges eit !! it_pos eit); reflexivity.
Qed.

Lemma LabeledEdgeIterator_new_ok eit lid :
  LabeledEdgeIterator_new eit lid
  = Ok (mkLabeled eit lid (label_at (it_edges eit) (it_pos eit) lid)).
Proof.
  unfold LabeledEdgeIterator_new. rewrite label_matches_valid. reflexivity.
Qed.

Lemma Next_invalid it : valid_ it = false -> Next it = Ok (false, it).
Proof. intros H. unfold Next. rewrite H. reflexivity. Qed.

Lemma Next_valid es pos lid e :
  es !! pos = Some e ->
  Next (mkLabeled (@mkEdgeIterator d es pos) lid true)
  = Ok (label_at es (S pos) lid,
        mkLabeled (mkEdgeIterator es (S pos)) lid (label_at es (S pos) lid)).
Proof.
  intros He. unfold Next. simpl.
  rewrite (EIT_Next_valid es pos e He), label_matches_valid. reflexivity.
Qed.

Lemma nexts_invalid n it : valid_ it = false -> nexts n it = Ok it.
Proof.
  intros H. induction n as [|n IH]; simpl.
  - reflexivity.
  - rewrite (Next_invalid it H). simpl. exact IH.
Qed.

Lemma nexts_add n m it :
  nexts (n + m) it = (it' <- nexts n it ;; nexts m it').
Proof.
  revert it. induction n as [|n IH]; intros it; simpl.
  - reflexivity.
  - destruct (Next it) as [p|e]; simpl; [apply IH | reflexivity].
Qed.
End CursorFacts.

(** ** The scan loop against the edge list *)

Section ScanFacts.
Context {d : Direction}.
Variables start_time end_time : Z.

Lemma visit_invalid lid es pos :
  label_at es pos lid = false ->
  visit lid start_time end_time (drop pos es) = ([], O).
Proof.
  unfold label_at. intros H.
  destruct (es !! pos) as [e|] eqn:He.
  - rewrite (drop_S _ _ _ He). simpl. rewrite H. reflexivity.
  - apply lookup_ge_None in He. rewrite drop_ge by exact He. reflexivity.
Qed.

(** The loop, from a consistent cursor and with enough fuel, returns the
    left fold of [accum] over the edges that [visit] selects, and leaves
    the cursor [snd (visit ...)] positions further. *)
Lemma scan_loop_visit fuel : forall es pos lid a,
  (length es - pos < fuel)%nat ->
  let v := visit lid start_time end_time (drop pos es) in
  scan_loop fuel start_time end_time
    (mkLabeled (@mkEdgeIterator d es pos) lid (label_at es pos lid)) a
  = Ok (fold_left accum (fst v) a,
        mkLabeled (mkEdgeIterator es (pos + snd v)) lid
          (label_at es (pos + snd v) lid)).
Proof.
  induction fuel as [|fuel IH]; intros es pos lid a Hfuel; [lia|].
  simpl. unfold IsValid. simpl.
  destruct (label_at es pos lid) eqn:Hv.
  - unfold label_at in Hv.
    destruct (es !! pos) as [e|] eqn:He; [|discriminate].
    unfold EIT_GetTimestamp, EIT_GetAmount, current. simpl. rewrite He. simpl.
    rewrite (drop_S _ _ _ He). simpl. rewrite Hv.
    assert (Hlen : (pos < length es)%nat) by (apply lookup_lt_is_Some; eauto).
    unfold scan_body.
    destruct (e_timestamp e =? start_time) eqn:Hs.
    + rewrite (Next_valid es pos lid e He). simpl.
      rewrite IH by lia.
      destruct (visit lid start_time end_time (drop (S pos) es)) as [c n]. simpl.
      replace (pos + S n)%nat with (S pos + n)%nat by lia. reflexivity.
    + destruct (e_timestamp e >=? end_time) eqn:Hend.
      * simpl. rewrite Nat.add_0_r. unfold label_at. rewrite He, Hv. reflexivity.
      * rewrite (Next_valid es pos lid e He). simpl.
        rewrite IH by lia.
        destruct (visit lid start_time end_time (drop (S pos) es)) as [c n]. simpl.
        replace (pos + S n)%nat with (S pos + n)%nat by lia. reflexivity.
  - rewrite (visit_invalid lid es pos Hv). simpl.
    rewrite Nat.add_0_r, Hv. reflexivity.
Qed.

Lemma scan_visit es pos lid :
  let v := visit lid start_time end_time (drop pos es) in
  scan start_time end_time
    (mkLabeled (@mkEdgeIterator d es pos) lid (label_at es pos lid))
  = Ok (fold_left accum (fst v) acc0,
        mkLabeled (mkEdgeIterator es (pos + snd v)) lid
          (label_at es (pos + snd v) lid)).
Proof.
  unfold scan, remaining. apply scan_loop_visit. simpl. lia.
Qed.

(** More fuel than the edges left never changes the result, so [scan]
    never runs out of it. *)
Lemma scan_loop_fuel fuel es pos lid a :
  (length es - pos < fuel)%nat ->
  scan_loop fuel start_time end_time
    (mkLabeled (@mkEdgeIterator d es pos) lid (label_at es pos lid)) a
  = scan_loop (S (length es - pos)) start_time end_time
    (mkLabeled (@mkEdgeIterator d es pos) lid (label_at es pos lid)) a.
Proof.
  intros H. rewrite !scan_loop_visit by lia. reflexivity.
Qed.
End ScanFacts.

(** ** The window under the ordering of the store *)

Lemma key_ltb_true l1 t1 n1 i1 l2 t2 n2 i2 :
  key_ltb (l1, t1, n1, i1) (l2, t2, n2, i2) = true <->
  l1 < l2 \/ (l1 = l2 /\ (t1 < t2 \/ (t1 = t2 /\ (n1 < n2 \/ (n1 = n2 /\ i1 < i2))))).
Proof.
  unfold key_ltb.
  destruct (Z.ltb_spec l1 l2), (Z.eqb_spec l1 l2), (Z.ltb_spec t1 t2), (Z.eqb_spec t1 t2),
    (Z.ltb_spec n1 n2), (Z.eqb_spec n1 n2), (Z.ltb_spec i1 i2); simpl; split;
    try discriminate; try reflexivity; lia.
Qed.

Lemma key_ltb_false l1 t1 n1 i1 l2 t2 n2 i2 :
  key_ltb (l1, t1, n1, i1) (l2, t2, n2, i2) = false <->
  l2 < l1 \/ (l2 = l1 /\ (t2 < t1 \/ (t2 = t1 /\ (n2 < n1 \/ (n2 = n1 /\ i2 <= i1))))).
Proof.
  unfold key_ltb.
  destruct (Z.ltb_spec l1 l2), (Z.eqb_spec l1 l2), (Z.ltb_spec t1 t2), (Z.eqb_spec t1 t2),
    (Z.ltb_spec n1 n2), (Z.eqb_spec n1 n2), (Z.ltb_spec i1 i2); simpl; split;
    try discriminate; try reflexivity; lia.
Qed.

Lemma filter_none {A} (P : A -> Prop) `{!forall x, Decision (P x)} (l : list A) :
  Forall (fun x => ~ P x) l -> filter P l = [].
Proof.
  induction 1 as [|x l Hx _ IH]; [reflexivity|].
  rewrite filter_cons_False by exact Hx. exact IH.
Qed.

Section Ordered.
Context (d : Direction) (lid start_time end_time : Z).

Lemma key_le_fields a b :
  key_le d a b -> e_lid a < e_lid b \/ (e_lid a = e_lid b /\ e_tid a <= e_tid b).
Proof.
  unfold key_le, edge_key. intros H. apply key_ltb_false in H. lia.
Qed.

Lemma visit_ordered es :
  StronglySorted (key_le d) es ->
  Forall (fun e => e_tid e = e_timestamp e) es ->
  Forall (after_seek lid start_time) es ->
  fst (visit lid start_time end_time es) = filter (in_window lid start_time end_time) es.
Proof.
  intros Hs. induction Hs as [|e es Hs IH Hle]; intros Htid Hafter; [reflexivity|].
  inversion Htid as [|? ? He Htid']; subst.
  inversion Hafter as [|? ? Ha Hafter']; subst.
  specialize (IH Htid' Hafter').
  assert (Hrest : forall x, x ∈ es ->
            e_lid e < e_lid x \/ (e_lid e = e_lid x /\ e_timestamp e <= e_timestamp x)).
  { intros x Hx. rewrite Forall_forall in Hle, Htid'.
    pose proof (key_le_fields e x (Hle x Hx)) as Hk.
    rewrite <- He, <- (Htid' x Hx). exact Hk. }
  simpl.
  destruct (Z.eqb_spec (e_lid e) lid) as [Hl|Hl].
  - destruct (Z.eqb_spec (e_timestamp e) start_time) as [Hst|Hst].
    + rewrite filter_cons_False by (unfold in_window; lia).
      destruct (visit lid start_time end_time es). exact IH.
    + destruct (Z.geb_spec (e_timestamp e) end_time) as [Hend|Hend].
      * rewrite filter_cons_False by (unfold in_window; lia).
        simpl. symmetry. apply filter_none.
        apply Forall_forall. intros x Hx [Hxl Hxt].
            destruct (Hrest x Hx) as [?|[? ?]]; lia.
      * rewrite filter_cons_True by (unfold after_seek, in_window in *; lia).
        destruct (visit lid start_time end_time es). simpl in *. f_equal. exact IH.
  - rewrite filter_cons_False by (unfold in_window; tauto).
    simpl. symmetry. apply filter_none.
    apply Forall_forall. intros x Hx [Hxl Hxt].
    unfold after_seek in Ha.
    destruct (Hrest x Hx) as [?|[? ?]]; lia.
Qed.

Lemma lower_bound_ordered es :
  StronglySorted (key_le d) es ->
  let n := seek_pos d lid start_time es in
  Forall (fun e => key_ltb (edge_key d e) (lid, start_time, 0, 0) = true) (take n es)
  /\ Forall (fun e => key_ltb (edge_key d e) (lid, start_time, 0, 0) = false) (drop n es).
Proof.
  unfold seek_pos.
  induction 1 as [|e es Hs IH Hle]; [split; constructor|].
  cbn [lower_bound].
  destruct (key_ltb (edge_key d e) (lid, start_time, 0, 0)) eqn:Hk; cbn [firstn skipn].
  - destruct IH as [IH1 IH2]. split; [constructor; assumption | exact IH2].
  - split; [constructor|]. constructor; [exact Hk|].
    rewrite Forall_forall in Hle. apply Forall_forall. intros x Hx.
    specialize (Hle x Hx). unfold key_le, edge_key in *.
    apply key_ltb_false in Hk, Hle. apply key_ltb_false. lia.
Qed.

Lemma StronglySorted_drop {A} (R : A -> A -> Prop) n (l : list A) :
  StronglySorted R l -> StronglySorted R (drop n l).
Proof.
  revert l. induction n as [|n IH]; intros l Hs; [exact Hs|].
  destruct l as [|x l]; [constructor|]. simpl.
  apply IH. inversion Hs; assumption.
Qed.

(** Under the store's ordering, with the timestamp as temporal key, a scan
    counts exactly the edges of the label whose timestamp lies strictly
    between start_time and end_time. *)
Lemma window_ordered es :
  store_ordered d es ->
  window d lid start_time end_time es = filter (in_window lid start_time end_time) es.
Proof.
  intros [Hs Htid]. unfold window.
  destruct (lower_bound_ordered es Hs) as [Hbefore Hafter].
  set (n := seek_pos d lid start_time es) in *.
  rewrite visit_ordered.
  - rewrite <- (take_drop n es) at 2. rewrite filter_app.
    rewrite (filter_none _ (take n es)); [reflexivity|].
    assert (Htid' : Forall (fun e => e_tid e = e_timestamp e) (take n es))
      by (apply Forall_take; exact Htid).
    rewrite Forall_forall in Hbefore, Htid'. apply Forall_forall.
    intros x Hx [Hxl Hxt].
    pose proof (Hbefore x Hx) as Hk. unfold edge_key in Hk.
    apply key_ltb_true in Hk. rewrite (Htid' x Hx) in Hk. lia.
  - apply StronglySorted_drop. exact Hs.
  - apply Forall_drop. exact Htid.
  - rewrite Forall_forall in Hafter. apply Forall_forall. intros x Hx.
    pose proof (Hafter x Hx) as Hk. unfold edge_key in Hk.
    apply key_ltb_false in Hk. unfold after_seek. lia.
Qed.
End Ordered.

(** ** The transaction as a function of the store *)

Section AggregateFacts.
Variable db : GraphDB.
Variables id start_time end_time : Z.

Lemma aggregate_no_vertex :
  db_unique_index db !! (ACCOUNT_LABEL, ACCOUNT_ID, id) = None ->
  aggregate db id start_time end_time []
  = (trace_lookup id, Throw (NotFound "no vertex found with the index value")).
Proof.
  intros H. unfold aggregate, tbind, CreateReadTxn, GetVertexByUniqueIndex, store_call.
  rewrite H. reflexivity.
Qed.

Lemma aggregate_dangling vid :
  db_unique_index db !! (ACCOUNT_LABEL, ACCOUNT_ID, id) = Some vid ->
  db_vertices db !! vid = None ->
  exists tr, aggregate db id start_time end_time [] = (tr, Throw InvalidIterator).
Proof.
  intros H Hv. eexists.
  unfold aggregate, tbind, CreateReadTxn, GetVertexByUniqueIndex, GetVertexIterator,
    store_call, lift, vit_GetId, vit_IsValid.
  rewrite H. cbn [vit_cur vit_vertices]. rewrite Hv. reflexivity.
Qed.

Lemma aggregate_no_label vid v :
  db_unique_index db !! (ACCOUNT_LABEL, ACCOUNT_ID, id) = Some vid ->
  db_vertices db !! vid = Some v ->
  db_edge_labels db !! TRANSFER_LABEL = None ->
  aggregate db id start_time end_time []
  = (trace_label id vid, Throw (NotFound "edge label does not exist")).
Proof.
  intros H Hv Hl.
  unfold aggregate, tbind, CreateReadTxn, GetVertexByUniqueIndex, GetVertexIterator,
    vit_Goto, GetEdgeLabelId, store_call, lift, vit_GetId, vit_IsValid.
  rewrite H. cbn [vit_cur vit_vertices]. rewrite Hv. cbn [vit_cur vit_vertices].
  rewrite Hl. reflexivity.
Qed.

Lemma aggregate_ok vid v label :
  db_unique_index db !! (ACCOUNT_LABEL, ACCOUNT_ID, id) = Some vid ->
  db_vertices db !! vid = Some v ->
  db_edge_labels db !! TRANSFER_LABEL = Some label ->
  let lid := scan_label label in
  aggregate db id start_time end_time []
  = (trace_full id vid lid start_time,
     Ok (finalize (raw OutDir lid start_time end_time (v_out v)),
         finalize (raw InDir lid start_time end_time (v_in v)))).
Proof.
  intros H Hv Hl lid.
  unfold aggregate, tbind, CreateReadTxn, GetVertexByUniqueIndex, GetVertexIterator,
    vit_Goto, GetEdgeLabelId, store_call, lift, vit_GetId, vit_IsValid.
  rewrite H. cbn [vit_cur vit_vertices]. rewrite Hv. cbn [vit_cur vit_vertices].
  rewrite Hl, Hv.
  unfold LabeledOutEdgeIterator, LabeledInEdgeIterator, tbind,
    vit_GetOutEdgeIterator, vit_GetInEdgeIterator, vit_data, lift.
  cbn [vit_cur vit_vertices]. rewrite Hv.
  rewrite !LabeledEdgeIterator_new_ok.
  unfold EIT_Goto. cbn [it_edges it_pos].
  fold (scan_label label). fold lid.
  rewrite !scan_visit. cbn [fst].
  reflexivity.
Qed.
End AggregateFacts.

(** ** Facts about doubles *)

Section FloatFacts.
Local Open Scope float_scope.

Lemma binary_round_aux_not_negative mx ex lx :
  sf_not_negative (binary_round_aux prec emax false mx ex lx) = true.
Proof.
  unfold binary_round_aux.
  destruct (shr_fexp prec emax mx ex lx) as [mrs' e'].
  destruct (shr_fexp prec emax _ e' loc_Exact) as [mrs'' e''].
  destruct (shr_m mrs''); [reflexivity | | reflexivity].
  destruct (e'' <=? emax - prec)%Z; reflexivity.
Qed.

Lemma SFmul_not_negative x y :
  sf_not_negative x = true -> sf_not_negative y = true ->
  sf_not_negative (SFmul prec emax x y) = true.
Proof.
  destruct x as [[]|[]| |[] mx ex], y as [[]|[]| |[] my ey];
    simpl; try reflexivity; try discriminate.
  intros _ _. apply binary_round_aux_not_negative.
Qed.

Lemma SFdiv_not_negative x y :
  sf_not_negative x = true -> sf_not_negative y = true ->
  sf_not_negative (SFdiv prec emax x y) = true.
Proof.
  destruct x as [[]|[]| |[] mx ex], y as [[]|[]| |[] my ey];
    simpl; try reflexivity; try discriminate.
  intros _ _.
  destruct (SFdiv_core_binary prec emax (Z.pos mx) ex (Z.pos my) ey) as [[mz ez] lz].
  apply binary_round_aux_not_negative.
Qed.

Lemma of_uint63_not_negative n : not_negative (of_uint63 n) = true.
Proof.
  unfold not_negative. rewrite FloatAxioms.of_uint63_spec.
  pose proof (Uint63.to_Z_bounded n) as [Hn _].
  unfold binary_normalize.
  destruct (Uint63.to_Z n) as [|p|p]; [reflexivity | | lia].
  unfold binary_round.
  destruct (shl_align p 0 _) as [mz ez].
  apply binary_round_aux_not_negative.
Qed.

Lemma round_not_negative x : not_negative x = true -> not_negative (round x) = true.
Proof.
  unfold round. intros H.
  destruct (Prim2SF x) as [s|s| |s m e] eqn:Hx; try exact H.
  destruct (0 <=? e)%Z; [exact H|].
  unfold not_negative in H. rewrite Hx in H. destruct s; [discriminate|].
  apply of_uint63_not_negative.
Qed.

Lemma round3_not_negative v : not_negative v = true -> not_negative (round3 v) = true.
Proof.
  intros H. unfold round3, not_negative.
  rewrite FloatAxioms.div_spec. apply SFdiv_not_negative; [|reflexivity].
  apply round_not_negative. unfold not_negative.
  rewrite FloatAxioms.mul_spec. apply SFmul_not_negative; [exact H | reflexivity].
Qed.

Lemma not_negative_neq_minus_one x : not_negative x = true -> (x =? -1) = false.
Proof.
  unfold not_negative. intros H. rewrite FloatAxioms.eqb_spec.
  change (Prim2SF (-1)) with (S754_finite true 4503599627370496 (-52)).
  destruct (Prim2SF x) as [[]|[]| |[] m e]; try discriminate; reflexivity.
Qed.

(** Whatever exceeds a value that is not negative is not negative. *)
Lemma ltb_not_negative x y :
  not_negative x = true -> (x <? y) = true -> not_negative y = true.
Proof.
  unfold not_negative. rewrite FloatAxioms.ltb_spec.
  destruct (Prim2SF x) as [[]|[]| |[] mx ex], (Prim2SF y) as [[]|[]| |[] my ey];
    simpl; try reflexivity; try discriminate.
Qed.

Lemma ltb_zero_negative x : (x <? 0) = true -> (0 <? x) = false.
Proof.
  rewrite !FloatAxioms.ltb_spec.
  change (Prim2SF 0) with (S754_zero false).
  destruct (Prim2SF x) as [[]|[]| |[] mx ex]; simpl; try reflexivity; try discriminate.
Qed.
(** The integer that [round] builds from a magnitude [m / 2 ^ k] is the
    nearest one, the halfway case going up. *)
Lemma round_shift_nearest (m k : Z) :
  (0 < k)%Z ->
  let n := ((m + 2 ^ (k - 1)) / 2 ^ k)%Z in
  (2 * (2 ^ k * n) - 2 ^ k <= 2 * m < 2 * (2 ^ k * n) + 2 ^ k)%Z.
Proof.
  intros Hk n.
  assert (Hpow : (2 ^ k = 2 * 2 ^ (k - 1))%Z).
  { replace k with (Z.succ (k - 1)) at 1 by lia. apply Z.pow_succ_r. lia. }
  assert (Hpos : (0 < 2 ^ (k - 1))%Z) by (apply Z.pow_pos_nonneg; lia).
  pose proof (Z.div_mod (m + 2 ^ (k - 1)) (2 ^ k) ltac:(lia)) as Hdiv.
  pose proof (Z.mod_pos_bound (m + 2 ^ (k - 1)) (2 ^ k) ltac:(lia)) as Hmod.
  fold n in Hdiv. lia.
Qed.

(** The same for the exact rounding to thousandths. *)
Lemma milli_half_up_nearest (m : positive) (e : Z) :
  (e < 0)%Z ->
  let k := milli_half_up m e in
  (2 * (2 ^ (- e) * k) - 2 ^ (- e) <= 2 * (1000 * Z.pos m)
   < 2 * (2 ^ (- e) * k) + 2 ^ (- e))%Z.
Proof.
  intros He k. unfold milli_half_up in k.
  destruct (Z.leb_spec 0 e) as [?|_]; [lia|].
  assert (Hpos : (0 < 2 ^ (- e))%Z) by (apply Z.pow_pos_nonneg; lia).
  pose proof (Z.div_mod (2 * 1000 * Z.pos m + 2 ^ (- e)) (2 * 2 ^ (- e)) ltac:(lia)) as Hdiv.
  pose proof (Z.mod_pos_bound (2 * 1000 * Z.pos m + 2 ^ (- e)) (2 * 2 ^ (- e)) ltac:(lia))
    as Hmod.
  fold k in Hdiv. lia.
Qed.
End FloatFacts.

(** ** The accumulators *)

Lemma to_int64_idem_add x y : to_int64 (to_int64 x + y) = to_int64 (x + y).
Proof.
  unfold to_int64, wrap_signed. f_equal.
  replace ((x + 2 ^ (64 - 1)) mod 2 ^ 64 - 2 ^ (64 - 1) + y + 2 ^ (64 - 1))
    with ((x + 2 ^ (64 - 1)) mod 2 ^ 64 + y) by lia.
  rewrite Zplus_mod_idemp_l. f_equal. lia.
Qed.

Lemma to_int64_small x : - 2 ^ 63 <= x < 2 ^ 63 -> to_int64 x = x.
Proof.
  intros H. unfold to_int64, wrap_signed.
  change (2 ^ (64 - 1)) with (2 ^ 63). change (2 ^ 64) with (2 * 2 ^ 63).
  rewrite Z.mod_small; lia.
Qed.

Lemma fold_accum_count l : forall a,
  to_int64 (acc_count (fold_left accum l a)) = to_int64 (acc_count a + Z.of_nat (length l)).
Proof.
  induction l as [|e l IH]; intros a; simpl.
  - f_equal. lia.
  - rewrite IH. unfold accum, accumulate. simpl.
    rewrite to_int64_idem_add. f_equal. lia.
Qed.

Lemma fold_accum_count_wrapped l : forall a,
  acc_count a = to_int64 (acc_count a) ->
  acc_count (fold_left accum l a) = to_int64 (acc_count (fold_left accum l a)).
Proof.
  induction l as [|e l IH]; intros a Ha; simpl.
  - exact Ha.
  - apply IH. unfold accum, accumulate. simpl.
    symmetry. rewrite <- (Z.add_0_r (to_int64 (acc_count a + 1))) at 1.
    rewrite to_int64_idem_add. f_equal. lia.
Qed.

Lemma raw_count d lid start_time end_time es :
  acc_count (raw d lid start_time end_time es)
  = to_int64 (Z.of_nat (length (window d lid start_time end_time es))).
Proof.
  unfold raw. rewrite fold_accum_count_wrapped by reflexivity.
  rewrite fold_accum_count. reflexivity.
Qed.

Lemma visit_counted_length lid start_time end_time es :
  (length (fst (visit lid start_time end_time es)) <= length es)%nat.
Proof.
  induction es as [|e es IH]; simpl; [lia|].
  destruct (e_lid e =? lid); [|simpl; lia].
  destruct (visit lid start_time end_time es) as [c n]. simpl in IH.
  destruct (e_timestamp e =? start_time); [simpl; lia|].
  destruct (e_timestamp e >=? end_time); simpl; lia.
Qed.

Lemma window_length d lid start_time end_time es :
  (length (window d lid start_time end_time es) <= length es)%nat.
Proof.
  unfold window.
  etransitivity; [apply visit_counted_length|].
  rewrite length_drop. lia.
Qed.

(** With fewer than 2^63 edges the count is the number of edges counted. *)
Lemma raw_count_exact d lid start_time end_time es :
  Z.of_nat (length es) < 2 ^ 63 ->
  acc_count (raw d lid start_time end_time es)
  = Z.of_nat (length (window d lid start_time end_time es)).
Proof.
  intros H. rewrite raw_count. apply to_int64_small.
  pose proof (window_length d lid start_time end_time es). lia.
Qed.

Lemma fold_accum_max_not_negative l : forall a,
  not_negative (acc_max a) = true ->
  not_negative (acc_max (fold_left accum l a)) = true.
Proof.
  induction l as [|e l IH]; intros a Ha; simpl; [exact Ha|].
  apply IH. unfold accum, accumulate. simpl.
  destruct (acc_max a <? e_amount e)%float eqn:Hlt; [|exact Ha].
  exact (ltb_not_negative _ _ Ha Hlt).
Qed.

Lemma raw_max_not_negative d lid start_time end_time es :
  not_negative (acc_max (raw d lid start_time end_time es)) = true.
Proof. apply fold_accum_max_not_negative. reflexivity. Qed.

(** Negative amounts never replace a running maximum of zero. *)
Lemma fold_accum_max_negative l : forall a,
  acc_max a = 0%float ->
  Forall (fun e => (e_amount e <? 0)%float = true) l ->
  acc_max (fold_left accum l a) = 0%float.
Proof.
  induction l as [|e l IH]; intros a Ha Hl; simpl; [exact Ha|].
  inversion Hl as [|e' l' He Hl']; subst.
  apply IH; [|exact Hl'].
  unfold accum, accumulate. simpl.
  rewrite Ha, (ltb_zero_negative _ He). reflexivity.
Qed.

(** ** When [Process] returns a record *)

Section ProcessFacts.
Variable json_parse : string -> result json.
Variable db : GraphDB.
Variable request : string.

Lemma Process_parse_error e :
  parse_request json_parse request = Throw e ->
  Process json_parse db request
  = (Returned false (JsonMsg ("json parse error: " +:+ what e)), []).
Proof. intros H. unfold Process. rewrite H. reflexivity. Qed.

Lemma Process_ok id start_time end_time vid v label :
  parse_request json_parse request = Ok (id, start_time, end_time) ->
  db_unique_index db !! (ACCOUNT_LABEL, ACCOUNT_ID, id) = Some vid ->
  db_vertices db !! vid = Some v ->
  db_edge_labels db !! TRANSFER_LABEL = Some label ->
  let lid := scan_label label in
  Process json_parse db request
  = (Returned true
       (ResultDump result_header
          [result_record (finalize (raw OutDir lid start_time end_time (v_out v)))
                         (finalize (raw InDir lid start_time end_time (v_in v)))]),
     trace_full id vid lid start_time).
Proof.
  intros Hp Hi Hv Hl lid. unfold Process. rewrite Hp.
  rewrite (aggregate_ok db id start_time end_time vid v label Hi Hv Hl).
  reflexivity.
Qed.

(** A record is emitted only on the path of [Process_ok]. *)
Lemma Process_emitted r :
  emitted (Process json_parse db request) = Some r ->
  exists id start_time end_time vid v label,
    parse_request json_parse request = Ok (id, start_time, end_time)
    /\ db_unique_index db !! (ACCOUNT_LABEL, ACCOUNT_ID, id) = Some vid
    /\ db_vertices db !! vid = Some v
    /\ db_edge_labels db !! TRANSFER_LABEL = Some label
    /\ r = result_record
             (finalize (raw OutDir (scan_label label) start_time end_time (v_out v)))
             (finalize (raw InDir (scan_label label) start_time end_time (v_in v))).
Proof.
  destruct (parse_request json_parse request) as [[[id st] et]|e] eqn:Hp.
  2:{ rewrite (Process_parse_error e Hp). discriminate. }
  destruct (db_unique_index db !! (ACCOUNT_LABEL, ACCOUNT_ID, id)) as [vid|] eqn:Hi.
  2:{ unfold Process. rewrite Hp, (aggregate_no_vertex db id st et Hi). discriminate. }
  destruct (db_vertices db !! vid) as [v|] eqn:Hv.
  2:{ destruct (aggregate_dangling db id st et vid Hi Hv) as [tr Htr].
      unfold Process. rewrite Hp, Htr. discriminate. }
  destruct (db_edge_labels db !! TRANSFER_LABEL) as [label|] eqn:Hl.
  2:{ unfold Process. rewrite Hp, (aggregate_no_label db id st et vid v Hi Hv Hl).
      discriminate. }
  rewrite (Process_ok id st et vid v label Hp Hi Hv Hl).
  unfold emitted. simpl. intros [= <-].
  exists id, st, et, vid, v, label. auto.
Qed.
(** [Process] never runs out of fuel: it returns, or a lookup or a cursor
    raised. *)
Lemma Process_total :
  (exists ok response, fst (Process json_parse db request) = Returned ok response)
  \/ (exists w, fst (Process json_parse db request) = Raised (NotFound w))
  \/ fst (Process json_parse db request) = Raised InvalidIterator.
Proof.
  destruct (parse_request json_parse request) as [[[id st] et]|e] eqn:Hp.
  2:{ left. rewrite (Process_parse_error e Hp). eauto. }
  destruct (db_unique_index db !! (ACCOUNT_LABEL, ACCOUNT_ID, id)) as [vid|] eqn:Hi.
  2:{ right. left. unfold Process. rewrite Hp, (aggregate_no_vertex db id st et Hi).
      eauto. }
  destruct (db_vertices db !! vid) as [v|] eqn:Hv.
  2:{ right. right. destruct (aggregate_dangling db id st et vid Hi Hv) as [tr Htr].
      unfold Process. rewrite Hp, Htr. reflexivity. }
  destruct (db_edge_labels db !! TRANSFER_LABEL) as [label|] eqn:Hl.
  2:{ right. left. unfold Process.
      rewrite Hp, (aggregate_no_label db id st et vid v Hi Hv Hl). eauto. }
  left. rewrite (Process_ok id st et vid v label Hp Hi Hv Hl). eauto.
Qed.
End ProcessFacts.

(** * Main results *)

(** ** The open start of the window *)

(** C1: in either directional loop, an iteration on an edge whose timestamp
    equals start_time takes the [continue] branch whatever the amount: the
    count, the sum and the maximum are left as they were, and the loop goes
    on from the cursor after Next(). *)
Theorem start_time_edge_skipped (d : Direction) (it : LabeledEdgeIterator d) (e : Edge)
    (start_time end_time : Z) (a : Acc) (fuel : nat) :
  IsValid it = true ->
  current (base it) = Some e ->
  e_timestamp e = start_time ->
  scan_body start_time end_time (e_timestamp e) (e_amount e) a = (Continue, a)
  /\ scan_loop (S fuel) start_time end_time it a
     = (p <- Next it ;; scan_loop fuel start_time end_time (snd p) a).
Proof.
  intros Hv He Hts.
  assert (Hbody : scan_body start_time end_time (e_timestamp e) (e_amount e) a
                  = (Continue, a)).
  { unfold scan_body. rewrite Hts, Z.eqb_refl. reflexivity. }
  split; [exact Hbody|].
  simpl. rewrite Hv.
  unfold EIT_GetTimestamp, EIT_GetAmount. rewrite He. simpl.
  rewrite Hbody. reflexivity.
Qed.

Lemma start_time_edge_skipped_witness :
  scan_body 100 200 100 1000000%float acc0 = (Continue, acc0)
  /\ scan_loop 3 100 200
       (mkLabeled (@mkEdgeIterator InDir
          [transfer_in 8 0 100 1000000%float; transfer_in 9 1 150 2%float] O) 3 true) acc0
     = (p <- Next (mkLabeled (@mkEdgeIterator InDir
          [transfer_in 8 0 100 1000000%float; transfer_in 9 1 150 2%float] O) 3 true) ;;
        scan_loop 2 100 200 (snd p) acc0).
Proof.
  apply (start_time_edge_skipped InDir
           (mkLabeled (@mkEdgeIterator InDir
              [transfer_in 8 0 100 1000000%float; transfer_in 9 1 150 2%float] O) 3 true)
           (transfer_in 8 0 100 1000000%float) 100 200 acc0 2);
    reflexivity.
Defined.

(** ** Next is a one-way filter *)

(** C9: Next on an invalid labeled cursor returns false and leaves the
    cursor, the raw one included, as it is.  On a valid one it calls the
    raw cursor's Next once, which moves it one position forward, sets the
    validity to whether the new position holds an edge of the label, and
    returns that validity.  A cursor that has become invalid after some
    Next calls is returned unchanged, still invalid, by any number of
    further calls. *)
Theorem Next_one_way_filter (d : Direction) (it : LabeledEdgeIterator d) :
  (valid_ it = false -> Next it = Ok (false, it))
  /\ (valid_ it = true ->
      exists v it',
        Next it = Ok (v, it')
        /\ base it' = snd (EIT_Next (base it))
        /\ lid_ it' = lid_ it
        /\ valid_ it' = v
        /\ v = label_at (it_edges (base it')) (it_pos (base it')) (lid_ it)
        /\ (consistent it ->
            it_edges (base it') = it_edges (base it)
            /\ it_pos (base it') = S (it_pos (base it))))
  /\ (forall n m it',
        nexts n it = Ok it' -> valid_ it' = false -> nexts (n + m) it = Ok it').
Proof.
  split; [apply Next_invalid|]. split.
  - destruct it as [[es pos] lid v]. simpl. intros ->.
    unfold Next. simpl.
    destruct (es !! pos) as [e|] eqn:He.
    + rewrite (EIT_Next_valid es pos e He), label_matches_valid. simpl.
      eexists _, _. split; [reflexivity|]. simpl. repeat split.
    + rewrite (EIT_Next_invalid es pos He). simpl.
      eexists _, _. split; [reflexivity|]. simpl.
      unfold consistent, label_at. simpl. rewrite He.
      repeat split; discriminate.
  - intros n m it' Hn Hv. rewrite nexts_add, Hn. simpl.
    apply nexts_invalid. exact Hv.
Qed.

(** ** The end of the window ends the scan *)

Lemma visit_until_end_edge lid start_time end_time mid e post :
  Forall (fun x => e_lid x = lid
                   /\ (e_timestamp x < end_time \/ e_timestamp x = start_time)) mid ->
  e_lid e = lid ->
  end_time <= e_timestamp e ->
  e_timestamp e <> start_time ->
  visit lid start_time end_time (mid ++ e :: post)
  = (filter (not_start start_time) mid, length mid).
Proof.
  intros Hmid Hl Hend Hns.
  induction Hmid as [|x mid [Hxl Hx] _ IH]; simpl.
  - rewrite Hl, Z.eqb_refl.
    destruct (Z.eqb_spec (e_timestamp e) start_time) as [?|_]; [contradiction|].
    destruct (Z.geb_spec (e_timestamp e) end_time) as [_|?]; [reflexivity | lia].
  - rewrite Hxl, Z.eqb_refl, IH.
    destruct (Z.eqb_spec (e_timestamp x) start_time) as [Heq|Hne].
    + rewrite filter_cons_False by (unfold not_start; tauto). reflexivity.
    + rewrite filter_cons_True by exact Hne.
      destruct (Z.geb_spec (e_timestamp x) end_time) as [?|_]; [lia | reflexivity].
Qed.

(** C2, as the code has it: in each directional scan, the first edge of
    the label whose timestamp is at least end_time and differs from
    start_time ends the scan.  The accumulators hold the edges before it
    that are not at start_time, the cursor rests on that edge, still valid,
    and nothing depends on the edges after it. *)
Theorem scan_stops_at_end_edge (d : Direction) (lid start_time end_time : Z)
    (pre mid post : list Edge) (e : Edge) :
  Forall (fun x => e_lid x = lid
                   /\ (e_timestamp x < end_time \/ e_timestamp x = start_time)) mid ->
  e_lid e = lid ->
  end_time <= e_timestamp e ->
  e_timestamp e <> start_time ->
  let es := pre ++ mid ++ e :: post in
  scan start_time end_time
    (mkLabeled (@mkEdgeIterator d es (length pre)) lid (label_at es (length pre) lid))
  = Ok (fold_left accum (filter (not_start start_time) mid) acc0,
        mkLabeled (mkEdgeIterator es (length pre + length mid)) lid true).
Proof.
  intros Hmid Hl Hend Hns es.
  rewrite scan_visit. unfold es.
  rewrite drop_app_length.
  rewrite (visit_until_end_edge lid start_time end_time mid e post Hmid Hl Hend Hns).
  simpl. do 3 f_equal.
  unfold label_at.
  rewrite lookup_app_r by lia.
  replace (length pre + length mid - length pre)%nat with (length mid) by lia.
  rewrite list_lookup_middle by reflexivity.
  rewrite Hl. apply Z.eqb_refl.
Qed.

Lemma scan_stops_at_end_edge_witness :
  scan 100 200
    (mkLabeled (@mkEdgeIterator OutDir
       ([transfer_out 8 0 100 5%float] ++ [transfer_out 9 1 150 10%float]
        ++ transfer_out 9 2 200 3%float :: [transfer_out 8 3 250 4%float]) 1) 3
       (label_at ([transfer_out 8 0 100 5%float] ++ [transfer_out 9 1 150 10%float]
        ++ transfer_out 9 2 200 3%float :: [transfer_out 8 3 250 4%float]) 1 3))
  = Ok (fold_left accum (filter (not_start 100) [transfer_out 9 1 150 10%float]) acc0,
        mkLabeled (mkEdgeIterator
          ([transfer_out 8 0 100 5%float] ++ [transfer_out 9 1 150 10%float]
           ++ transfer_out 9 2 200 3%float :: [transfer_out 8 3 250 4%float]) 2) 3 true).
Proof.
  apply (scan_stops_at_end_edge OutDir 3 100 200
           [transfer_out 8 0 100 5%float] [transfer_out 9 1 150 10%float]
           [transfer_out 8 3 250 4%float] (transfer_out 9 2 200 3%float)).
  - repeat constructor; simpl; lia.
  - reflexivity.
  - simpl; lia.
  - simpl; lia.
Defined.

(** C2 fails as stated when the window is empty (start_time = end_time
    = 100): the first edge has timestamp 100, which is at least end_time,
    yet the scan takes the [continue] branch for it, reads the edge after it
    and only stops there, with the cursor on position 1. *)
Lemma end_edge_at_start_time_not_terminal :
  (exists e, [transfer_out 8 0 100 5%float; transfer_out 9 1 150 10%float] !! O = Some e
             /\ e_lid e = 3 /\ 100 <= e_timestamp e)
  /\ scan 100 100
       (mkLabeled (@mkEdgeIterator OutDir
          [transfer_out 8 0 100 5%float; transfer_out 9 1 150 10%float] O) 3 true)
     = Ok (acc0,
           mkLabeled (mkEdgeIterator
             [transfer_out 8 0 100 5%float; transfer_out 9 1 150 10%float] 1) 3 true).
Proof.
  split.
  - eexists. split; [reflexivity|]. split; [reflexivity | simpl; lia].
  - reflexivity.
Qed.

(** ** The sentinel of an empty direction *)

Lemma finalize_sentinel (a : Acc) :
  not_negative (acc_max a) = true ->
  (acc_count (finalize a) = 0 <-> (acc_max (finalize a) =? -1)%float = true).
Proof.
  intros Hnn. unfold finalize. simpl.
  destruct (Z.eqb_spec (acc_count a) 0) as [H0|H0].
  - split; [reflexivity | intros _; exact H0].
  - rewrite (not_negative_neq_minus_one _ (round3_not_negative _ Hnn)).
    split; [contradiction | discriminate].
Qed.

Lemma raw_count_zero d lid start_time end_time es :
  Z.of_nat (length es) < 2 ^ 63 ->
  (acc_count (raw d lid start_time end_time es) = 0
   <-> window d lid start_time end_time es = []).
Proof.
  intros Hlen. rewrite (raw_count_exact _ _ _ _ _ Hlen).
  destruct (window d lid start_time end_time es); simpl; split;
    try reflexivity; try discriminate; lia.
Qed.

(** C3: whenever [Process] returns a record, numEdge1 is 0 exactly when
    maxEdge1Amount compares equal to -1, and numEdge2 is 0 exactly when
    maxEdge2Amount does.  When the edge list of a direction is in the
    order of the store and has fewer than 2^63 edges, the sentinel of that
    direction is there exactly when no edge of the label has its timestamp
    strictly inside the window. *)
Theorem sentinel_iff_count_zero (json_parse : string -> result json) (db : GraphDB)
    (request : string) (r : Record_) :
  emitted (Process json_parse db request) = Some r ->
  exists id start_time end_time vid v label m1 n1 m2 n2,
    parse_request json_parse request = Ok (id, start_time, end_time)
    /\ db_unique_index db !! (ACCOUNT_LABEL, ACCOUNT_ID, id) = Some vid
    /\ db_vertices db !! vid = Some v
    /\ db_edge_labels db !! TRANSFER_LABEL = Some label
    /\ get_field "maxEdge1Amount" r = Some (FD_Double m1)
    /\ get_field "numEdge1" r = Some (FD_Int64 n1)
    /\ get_field "maxEdge2Amount" r = Some (FD_Double m2)
    /\ get_field "numEdge2" r = Some (FD_Int64 n2)
    /\ (n1 = 0 <-> (m1 =? -1)%float = true)
    /\ (n2 = 0 <-> (m2 =? -1)%float = true)
    /\ (store_ordered OutDir (v_out v) ->
        Z.of_nat (length (v_out v)) < 2 ^ 63 ->
        ((m1 =? -1)%float = true
         <-> filter (in_window (scan_label label) start_time end_time) (v_out v) = []))
    /\ (store_ordered InDir (v_in v) ->
        Z.of_nat (length (v_in v)) < 2 ^ 63 ->
        ((m2 =? -1)%float = true
         <-> filter (in_window (scan_label label) start_time end_time) (v_in v) = [])).
Proof.
  intros Hr.
  destruct (Process_emitted json_parse db request r Hr)
    as (id & st & et & vid & v & label & Hp & Hi & Hv & Hl & ->).
  set (lid := scan_label label).
  set (ro := raw OutDir lid st et (v_out v)).
  set (ri := raw InDir lid st et (v_in v)).
  exists id, st, et, vid, v, label.
  exists (acc_max (finalize ro)), (acc_count (finalize ro)).
  exists (acc_max (finalize ri)), (acc_count (finalize ri)).
  pose proof (finalize_sentinel ro (raw_max_not_negative _ _ _ _ _)) as Ho.
  pose proof (finalize_sentinel ri (raw_max_not_negative _ _ _ _ _)) as Hin.
  repeat split; try assumption; try reflexivity;
    try (apply Ho; assumption); try (apply Hin; assumption).
  - intros Hm. rewrite <- (window_ordered OutDir (scan_label label) st et (v_out v)) by assumption.
    apply (raw_count_zero OutDir lid st et (v_out v)); [assumption|].
    apply Ho. exact Hm.
  - intros Hw. rewrite <- (window_ordered OutDir (scan_label label) st et (v_out v)) in Hw by assumption.
    apply Ho. apply (raw_count_zero OutDir lid st et (v_out v)); assumption.
  - intros Hm. rewrite <- (window_ordered InDir (scan_label label) st et (v_in v)) by assumption.
    apply (raw_count_zero InDir lid st et (v_in v)); [assumption|].
    apply Hin. exact Hm.
  - intros Hw. rewrite <- (window_ordered InDir (scan_label label) st et (v_in v)) in Hw by assumption.
    apply Hin. apply (raw_count_zero InDir lid st et (v_in v)); assumption.
Qed.

Lemma sentinel_iff_count_zero_witness :
  exists id start_time end_time vid v label m1 n1 m2 n2,
    parse_request (parse_as (demo_request 42 100 200)) "request"
    = Ok (id, start_time, end_time)
    /\ db_unique_index (demo_db [transfer_out 8 0 150 10%float] [])
         !! (ACCOUNT_LABEL, ACCOUNT_ID, id) = Some vid
    /\ db_vertices (demo_db [transfer_out 8 0 150 10%float] []) !! vid = Some v
    /\ db_edge_labels (demo_db [transfer_out 8 0 150 10%float] []) !! TRANSFER_LABEL
       = Some label
    /\ get_field "maxEdge1Amount"
         (result_record (mkAcc 10%float 10%float 1) (mkAcc 0%float (-1)%float 0))
       = Some (FD_Double m1)
    /\ get_field "numEdge1"
         (result_record (mkAcc 10%float 10%float 1) (mkAcc 0%float (-1)%float 0))
       = Some (FD_Int64 n1)
    /\ get_field "maxEdge2Amount"
         (result_record (mkAcc 10%float 10%float 1) (mkAcc 0%float (-1)%float 0))
       = Some (FD_Double m2)
    /\ get_field "numEdge2"
         (result_record (mkAcc 10%float 10%float 1) (mkAcc 0%float (-1)%float 0))
       = Some (FD_Int64 n2)
    /\ (n1 = 0 <-> (m1 =? -1)%float = true)
    /\ (n2 = 0 <-> (m2 =? -1)%float = true)
    /\ (store_ordered OutDir (v_out v) ->
        Z.of_nat (length (v_out v)) < 2 ^ 63 ->
        ((m1 =? -1)%float = true
         <-> filter (in_window (scan_label label) start_time end_time) (v_out v) = []))
    /\ (store_ordered InDir (v_in v) ->
        Z.of_nat (length (v_in v)) < 2 ^ 63 ->
        ((m2 =? -1)%float = true
         <-> filter (in_window (scan_label label) start_time end_time) (v_in v) = [])).
Proof.
  apply (sentinel_iff_count_zero (parse_as (demo_request 42 100 200))
           (demo_db [transfer_out 8 0 150 10%float] []) "request").
  vm_compute. reflexivity.
Defined.

(** ** Negative amounts *)

Lemma round3_zero : round3 0%float = 0%float.
Proof. vm_compute. reflexivity. Qed.

(** The running maximum of a scan that counts negative amounts only. *)
Lemma negative_window_max_zero (d : Direction) (lid start_time end_time : Z)
    (es : list Edge) :
  Z.of_nat (length es) < 2 ^ 63 ->
  window d lid start_time end_time es <> [] ->
  Forall (fun e => (e_amount e <? 0)%float = true) (window d lid start_time end_time es) ->
  0 < acc_count (finalize (raw d lid start_time end_time es))
  /\ acc_max (finalize (raw d lid start_time end_time es)) = 0%float.
Proof.
  intros Hlen Hne Hneg.
  assert (Hpos : 0 < acc_count (raw d lid start_time end_time es)).
  { rewrite (raw_count_exact _ _ _ _ _ Hlen).
    destruct (window d lid start_time end_time es); [contradiction|].
    simpl. lia. }
  split; [exact Hpos|].
  unfold finalize. simpl.
  destruct (Z.eqb_spec (acc_count (raw d lid start_time end_time es)) 0) as [H0|_]; [lia|].
  unfold raw. rewrite (fold_accum_max_negative _ acc0 eq_refl Hneg).
  apply round3_zero.
Qed.

(** C10: take a direction whose edge list is in the order of the store
    (fewer than 2^63 edges).  When at least one edge of the label has its
    timestamp strictly inside the window and every such edge has a negative
    amount, the emitted count of the direction is positive and its emitted
    maximum is 0: the running maximum starts at 0 and no negative amount
    exceeds it. *)
Theorem negative_amounts_max_zero (json_parse : string -> result json) (db : GraphDB)
    (request : string) (id start_time end_time vid label : Z) (v : VertexData)
    (d : Direction) :
  parse_request json_parse request = Ok (id, start_time, end_time) ->
  db_unique_index db !! (ACCOUNT_LABEL, ACCOUNT_ID, id) = Some vid ->
  db_vertices db !! vid = Some v ->
  db_edge_labels db !! TRANSFER_LABEL = Some label ->
  store_ordered d (dir_edges d v) ->
  Z.of_nat (length (dir_edges d v)) < 2 ^ 63 ->
  filter (in_window (scan_label label) start_time end_time) (dir_edges d v) <> [] ->
  Forall (fun e => (e_amount e <? 0)%float = true)
    (filter (in_window (scan_label label) start_time end_time) (dir_edges d v)) ->
  exists r n,
    emitted (Process json_parse db request) = Some r
    /\ get_field (num_field d) r = Some (FD_Int64 n)
    /\ 0 < n
    /\ get_field (max_field d) r = Some (FD_Double 0%float).
Proof.
  intros Hp Hi Hv Hl Hord Hlen Hne Hneg.
  rewrite <- (window_ordered d (scan_label label) start_time end_time _ Hord) in Hne, Hneg.
  destruct (negative_window_max_zero d (scan_label label) start_time end_time
              (dir_edges d v) Hlen Hne Hneg) as [Hpos Hmax].
  rewrite (Process_ok json_parse db request id start_time end_time vid v label Hp Hi Hv Hl).
  unfold emitted. simpl.
  eexists. exists (acc_count (finalize (raw d (scan_label label) start_time end_time
                                          (dir_edges d v)))).
  split; [reflexivity|].
  destruct d; simpl in *; repeat split; try exact Hpos; rewrite <- Hmax; reflexivity.
Qed.

Lemma negative_amounts_max_zero_witness :
  exists r n,
    emitted (Process (parse_as (demo_request 42 100 200))
               (demo_db [] [transfer_in 8 0 150 (-2)%float; transfer_in 9 1 160 (-5)%float])
               "request") = Some r
    /\ get_field (num_field InDir) r = Some (FD_Int64 n)
    /\ 0 < n
    /\ get_field (max_field InDir) r = Some (FD_Double 0%float).
Proof.
  apply (negative_amounts_max_zero (parse_as (demo_request 42 100 200))
           (demo_db [] [transfer_in 8 0 150 (-2)%float; transfer_in 9 1 160 (-5)%float])
           "request" 42 100 200 7 3
           (mkVertexData [] [transfer_in 8 0 150 (-2)%float; transfer_in 9 1 160 (-5)%float])
           InDir).
  - reflexivity.
  - reflexivity.
  - reflexivity.
  - reflexivity.
  - split; repeat constructor.
  - simpl. lia.
  - vm_compute. discriminate.
  - repeat constructor.
Defined.

(** ** Scenario: window (100, 200) *)

(** C5: when the queried vertex has exactly three outgoing transfer edges,
    at timestamps 100, 150 and 200 with amounts 5, 10 and 3, a request with
    startTime 100 and endTime 200 returns numEdge1 = 1, sumEdge1Amount = 10
    and maxEdge1Amount = 10, whatever the incoming edges are. *)
Theorem scenario_window_100_200 (json_parse : string -> result json) (db : GraphDB)
    (request : string) (id vid label : Z) (v : VertexData)
    (dst1 eid1 dst2 eid2 dst3 eid3 : Z) :
  parse_request json_parse request = Ok (id, 100, 200) ->
  db_unique_index db !! (ACCOUNT_LABEL, ACCOUNT_ID, id) = Some vid ->
  db_vertices db !! vid = Some v ->
  db_edge_labels db !! TRANSFER_LABEL = Some label ->
  v_out v = [mkEdge vid dst1 (scan_label label) 100 eid1 100 5%float;
             mkEdge vid dst2 (scan_label label) 150 eid2 150 10%float;
             mkEdge vid dst3 (scan_label label) 200 eid3 200 3%float] ->
  exists r,
    emitted (Process json_parse db request) = Some r
    /\ get_field "numEdge1" r = Some (FD_Int64 1)
    /\ get_field "sumEdge1Amount" r = Some (FD_Double 10%float)
    /\ get_field "maxEdge1Amount" r = Some (FD_Double 10%float).
Proof.
  intros Hp Hi Hv Hl Hout.
  rewrite (Process_ok json_parse db request id 100 200 vid v label Hp Hi Hv Hl).
  eexists. split; [reflexivity|].
  assert (Hraw : raw OutDir (scan_label label) 100 200 (v_out v)
                 = mkAcc 10%float 10%float 1).
  { rewrite Hout. unfold raw, window, seek_pos. simpl lower_bound.
    rewrite !Z.ltb_irrefl, !Z.eqb_refl. simpl orb.
    destruct (_ || _); simpl; rewrite !Z.eqb_refl; reflexivity. }
  rewrite Hraw. repeat split.
Qed.

Lemma scenario_window_100_200_witness :
  exists r,
    emitted (Process (parse_as (demo_request 42 100 200))
               (demo_db [transfer_out 8 0 100 5%float; transfer_out 9 1 150 10%float;
                         transfer_out 8 2 200 3%float] [])
               "request") = Some r
    /\ get_field "numEdge1" r = Some (FD_Int64 1)
    /\ get_field "sumEdge1Amount" r = Some (FD_Double 10%float)
    /\ get_field "maxEdge1Amount" r = Some (FD_Double 10%float).
Proof.
  apply (scenario_window_100_200 (parse_as (demo_request 42 100 200))
           (demo_db [transfer_out 8 0 100 5%float; transfer_out 9 1 150 10%float;
                     transfer_out 8 2 200 3%float] [])
           "request" 42 7 3
           (mkVertexData [transfer_out 8 0 100 5%float; transfer_out 9 1 150 10%float;
                          transfer_out 8 2 200 3%float] [])
           8 0 9 1 8 2); reflexivity.
Defined.

(** ** The two directions are independent *)

(** C6: take two stores with the same unique index and the same edge
    labels in which the queried vertex has the same edges of one direction.
    The edges of the other direction at the queried vertex, and all the
    edges of every other vertex, may differ in any way (permuted,
    duplicated, anything): duplicating an incoming edge of the queried
    vertex also changes the outgoing edges of the vertex it comes from.
    Then the three fields of the first direction are the same in both
    answers, and a query that fails in one store fails in the other.  With
    the outgoing direction this is sumEdge1Amount, maxEdge1Amount and
    numEdge1; with the incoming one the three Edge2 fields. *)
Theorem directions_independent (json_parse : string -> result json) (db db' : GraphDB)
    (request : string) (d : Direction) :
  db_unique_index db = db_unique_index db' ->
  db_edge_labels db = db_edge_labels db' ->
  (forall vid,
     queried_vertex json_parse db request = Some vid ->
     dir_edges d <$> db_vertices db !! vid = dir_edges d <$> db_vertices db' !! vid) ->
  dir_fields d <$> emitted (Process json_parse db request)
  = dir_fields d <$> emitted (Process json_parse db' request).
Proof.
  intros Hidx Hlab Hagree. unfold queried_vertex in Hagree.
  destruct (parse_request json_parse request) as [[[id st] et]|e] eqn:Hp.
  2:{ rewrite !(Process_parse_error _ _ _ e Hp). reflexivity. }
  destruct (db_unique_index db !! (ACCOUNT_LABEL, ACCOUNT_ID, id)) as [vid|] eqn:Hi.
  2:{ unfold Process. rewrite Hp.
      rewrite (aggregate_no_vertex db id st et Hi).
      rewrite Hidx in Hi. rewrite (aggregate_no_vertex db' id st et Hi). reflexivity. }
  pose proof (Hagree vid eq_refl) as Hvid.
  destruct (db_vertices db !! vid) as [v|] eqn:Hv;
    destruct (db_vertices db' !! vid) as [v'|] eqn:Hv'; try discriminate.
  2:{ destruct (aggregate_dangling db id st et vid Hi Hv) as [tr Htr].
      rewrite Hidx in Hi.
      destruct (aggregate_dangling db' id st et vid Hi Hv') as [tr' Htr'].
      unfold Process. rewrite Hp, Htr, Htr'. reflexivity. }
  destruct (db_edge_labels db !! TRANSFER_LABEL) as [label|] eqn:Hl.
  2:{ unfold Process. rewrite Hp.
      rewrite (aggregate_no_label db id st et vid v Hi Hv Hl).
      rewrite Hidx in Hi. rewrite Hlab in Hl.
      rewrite (aggregate_no_label db' id st et vid v' Hi Hv' Hl). reflexivity. }
  rewrite (Process_ok json_parse db request id st et vid v label Hp Hi Hv Hl).
  rewrite Hidx in Hi. rewrite Hlab in Hl.
  rewrite (Process_ok json_parse db' request id st et vid v' label Hp Hi Hv' Hl).
  unfold emitted. simpl. f_equal.
  injection Hvid as Hedges.
  destruct d; simpl in Hedges; rewrite Hedges; reflexivity.
Qed.

Lemma directions_independent_witness :
  dir_fields OutDir
    <$> emitted (Process (parse_as (demo_request 42 100 200))
                   (demo_db_pair [transfer_out 8 0 150 10%float]
                      [transfer_in 8 1 150 1%float; transfer_in 8 2 160 2%float]
                      [transfer_in 8 1 150 1%float; transfer_in 8 2 160 2%float]
                      [transfer_out 8 0 150 10%float])
                   "request")
  = dir_fields OutDir
      <$> emitted (Process (parse_as (demo_request 42 100 200))
                     (demo_db_pair [transfer_out 8 0 150 10%float]
                        [transfer_in 8 2 160 2%float; transfer_in 8 1 150 1%float;
                         transfer_in 8 1 150 1%float]
                        [transfer_in 8 1 150 1%float; transfer_in 8 1 150 1%float;
                         transfer_in 8 2 160 2%float]
                        [transfer_out 8 0 150 10%float])
                     "request").
Proof.
  apply (directions_independent (parse_as (demo_request 42 100 200))
           (demo_db_pair [transfer_out 8 0 150 10%float]
              [transfer_in 8 1 150 1%float; transfer_in 8 2 160 2%float]
              [transfer_in 8 1 150 1%float; transfer_in 8 2 160 2%float]
              [transfer_out 8 0 150 10%float])
           (demo_db_pair [transfer_out 8 0 150 10%float]
              [transfer_in 8 2 160 2%float; transfer_in 8 1 150 1%float;
               transfer_in 8 1 150 1%float]
              [transfer_in 8 1 150 1%float; transfer_in 8 1 150 1%float;
               transfer_in 8 2 160 2%float]
              [transfer_out 8 0 150 10%float])
           "request" OutDir).
  - reflexivity.
  - reflexivity.
  - intros vid Hq. injection Hq as <-. reflexivity.
Defined.

(** ** Parse errors come before the store *)

Lemma parse_from_json_well_formed key input :
  well_formed_field key input = true -> exists z, parse_from_json key input = Ok z.
Proof.
  unfold well_formed_field, parse_from_json.
  destruct input as [| | | | | |fields]; try discriminate.
  destruct (json_field key fields) as [[| |z| | | |]|]; try discriminate.
  intros ->. eauto.
Qed.

Lemma parse_from_json_ill_formed key input :
  well_formed_field key input = false -> exists e, parse_from_json key input = Throw e.
Proof.
  unfold well_formed_field, parse_from_json.
  destruct input as [| | | | | |fields]; try (intros _; eauto; fail).
  destruct (json_field key fields) as [[| |z| | | |]|]; try (intros _; eauto; fail).
  intros ->. eauto.
Qed.

Lemma parse_request_ill_formed json_parse request input :
  json_parse request = Ok input ->
  well_formed_request input = false ->
  exists e, parse_request json_parse request = Throw e.
Proof.
  intros Hp Hw. unfold parse_request. rewrite Hp. simpl.
  unfold well_formed_request in Hw.
  destruct (well_formed_field "id" input) eqn:H1.
  - destruct (parse_from_json_well_formed _ _ H1) as [id ->]. simpl.
    destruct (well_formed_field "startTime" input) eqn:H2.
    + destruct (parse_from_json_well_formed _ _ H2) as [st ->]. simpl.
      simpl in Hw.
      destruct (parse_from_json_ill_formed _ _ Hw) as [e ->]. simpl. eauto.
    + destruct (parse_from_json_ill_formed _ _ H2) as [e ->]. simpl. eauto.
  - destruct (parse_from_json_ill_formed _ _ H1) as [e ->]. simpl. eauto.
Qed.

(** C7: when the text of the request does not parse, or one of the fields
    id, startTime and endTime is missing or malformed, [Process] returns
    false with a response that carries the message of the parse error, and
    the trace of store calls is empty: no read transaction was opened and
    no vertex, label or edge was looked up. *)
Theorem parse_error_before_store (json_parse : string -> result json) (db : GraphDB)
    (request : string) :
  (exists e, json_parse request = Throw e)
  \/ (exists input, json_parse request = Ok input /\ well_formed_request input = false) ->
  exists e,
    Process json_parse db request
    = (Returned false (JsonMsg ("json parse error: " +:+ what e)), []).
Proof.
  intros [[e He]|[input [Hp Hw]]].
  - exists e. apply Process_parse_error. unfold parse_request. rewrite He. reflexivity.
  - destruct (parse_request_ill_formed json_parse request input Hp Hw) as [e He].
    exists e. apply Process_parse_error. exact He.
Qed.

Lemma parse_error_before_store_witness :
  exists e,
    Process (parse_as (JObj [("id", JInt 42); ("startTime", JInt 100)]))
      (demo_db [transfer_out 8 0 150 10%float] []) "request"
    = (Returned false (JsonMsg ("json parse error: " +:+ what e)), []).
Proof.
  apply (parse_error_before_store
           (parse_as (JObj [("id", JInt 42); ("startTime", JInt 100)]))
           (demo_db [transfer_out 8 0 150 10%float] []) "request").
  right. eexists. split; reflexivity.
Defined.

(** ** Unknown account or edge type *)

(** C8: when the request parses but its id is not under the Account
    unique index, or the edge type transfer is not declared, the lookup's
    NotFound exception leaves [Process]: nothing is returned and no record
    is emitted. *)
Theorem unknown_id_or_label_raises (json_parse : string -> result json) (db : GraphDB)
    (request : string) (id start_time end_time : Z) :
  index_sound db ->
  parse_request json_parse request = Ok (id, start_time, end_time) ->
  db_unique_index db !! (ACCOUNT_LABEL, ACCOUNT_ID, id) = None
  \/ db_edge_labels db !! TRANSFER_LABEL = None ->
  exists w tr,
    Process json_parse db request = (Raised (NotFound w), tr)
    /\ emitted (Process json_parse db request) = None.
Proof.
  intros Hsound Hp Hcase.
  destruct (db_unique_index db !! (ACCOUNT_LABEL, ACCOUNT_ID, id)) as [vid|] eqn:Hi.
  - destruct Hcase as [?|Hl]; [discriminate|].
    destruct (Hsound _ _ Hi) as [v Hv].
    unfold Process. rewrite Hp.
    rewrite (aggregate_no_label db id start_time end_time vid v Hi Hv Hl).
    eexists _, _. split; reflexivity.
  - unfold Process. rewrite Hp.
    rewrite (aggregate_no_vertex db id start_time end_time Hi).
    eexists _, _. split; reflexivity.
Qed.

Lemma demo_db_index_sound outs ins : index_sound (demo_db outs ins).
Proof.
  intros key vid. unfold demo_db. simpl.
  destruct (decide ((ACCOUNT_LABEL, ACCOUNT_ID, 42) = key)) as [<-|Hne].
  - rewrite lookup_insert_eq. intros [= <-]. rewrite lookup_insert_eq. eauto.
  - rewrite lookup_insert_ne by exact Hne. rewrite lookup_empty. discriminate.
Defined.

Lemma unknown_id_or_label_raises_witness :
  exists w tr,
    Process (parse_as (demo_request 43 100 200))
      (demo_db [transfer_out 8 0 150 10%float] []) "request"
    = (Raised (NotFound w), tr)
    /\ emitted (Process (parse_as (demo_request 43 100 200))
                  (demo_db [transfer_out 8 0 150 10%float] []) "request") = None.
Proof.
  apply (unknown_id_or_label_raises (parse_as (demo_request 43 100 200))
           (demo_db [transfer_out 8 0 150 10%float] []) "request" 43 100 200).
  - apply demo_db_index_sound.
  - reflexivity.
  - left. reflexivity.
Defined.

(** ** Rounding of the emitted values *)

Example half_up_3_decimals_12_34567 :
  half_up_3_decimals 12.34567%float = 12.346%float.
Proof. vm_compute. reflexivity. Qed.

(** C4, as the code has it: whenever [Process] returns a record, the two
    emitted sums are [std::round(s * 1000.0) / 1000] of the accumulated
    sums, computed in double arithmetic, and each emitted maximum is the
    same function of the running maximum when the count of its direction
    is not 0, and -1 when it is 0.  An accumulated 12.34567 is emitted as
    12.346. *)
Theorem emitted_values_rounded (json_parse : string -> result json) (db : GraphDB)
    (request : string) (r : Record_) :
  emitted (Process json_parse db request) = Some r ->
  exists id start_time end_time vid v label,
    parse_request json_parse request = Ok (id, start_time, end_time)
    /\ db_unique_index db !! (ACCOUNT_LABEL, ACCOUNT_ID, id) = Some vid
    /\ db_vertices db !! vid = Some v
    /\ db_edge_labels db !! TRANSFER_LABEL = Some label
    /\ get_field "sumEdge1Amount" r
       = Some (FD_Double
                 (round3 (acc_sum (raw OutDir (scan_label label) start_time end_time
                                     (v_out v)))))
    /\ get_field "maxEdge1Amount" r
       = Some (FD_Double
                 (if acc_count (raw OutDir (scan_label label) start_time end_time
                                  (v_out v)) =? 0
                  then (-1)%float
                  else round3 (acc_max (raw OutDir (scan_label label) start_time end_time
                                          (v_out v)))))
    /\ get_field "sumEdge2Amount" r
       = Some (FD_Double
                 (round3 (acc_sum (raw InDir (scan_label label) start_time end_time
                                     (v_in v)))))
    /\ get_field "maxEdge2Amount" r
       = Some (FD_Double
                 (if acc_count (raw InDir (scan_label label) start_time end_time
                                  (v_in v)) =? 0
                  then (-1)%float
                  else round3 (acc_max (raw InDir (scan_label label) start_time end_time
                                          (v_in v)))))
    /\ round3 12.34567%float = 12.346%float.
Proof.
  intros Hr.
  destruct (Process_emitted json_parse db request r Hr)
    as (id & st & et & vid & v & label & Hp & Hi & Hv & Hl & ->).
  exists id, st, et, vid, v, label.
  repeat split; assumption.
Qed.

Lemma emitted_values_rounded_witness :
  exists id start_time end_time vid v label,
    parse_request (parse_as (demo_request 42 100 200)) "request"
    = Ok (id, start_time, end_time)
    /\ db_unique_index (demo_db [transfer_out 8 0 150 12.34567%float] [])
         !! (ACCOUNT_LABEL, ACCOUNT_ID, id) = Some vid
    /\ db_vertices (demo_db [transfer_out 8 0 150 12.34567%float] []) !! vid = Some v
    /\ db_edge_labels (demo_db [transfer_out 8 0 150 12.34567%float] [])
         !! TRANSFER_LABEL = Some label
    /\ get_field "sumEdge1Amount"
         (result_record (mkAcc 12.346%float 12.346%float 1) (mkAcc 0%float (-1)%float 0))
       = Some (FD_Double
                 (round3 (acc_sum (raw OutDir (scan_label label) start_time end_time
                                     (v_out v)))))
    /\ get_field "maxEdge1Amount"
         (result_record (mkAcc 12.346%float 12.346%float 1) (mkAcc 0%float (-1)%float 0))
       = Some (FD_Double
                 (if acc_count (raw OutDir (scan_label label) start_time end_time
                                  (v_out v)) =? 0
                  then (-1)%float
                  else round3 (acc_max (raw OutDir (scan_label label) start_time end_time
                                          (v_out v)))))
    /\ get_field "sumEdge2Amount"
         (result_record (mkAcc 12.346%float 12.346%float 1) (mkAcc 0%float (-1)%float 0))
       = Some (FD_Double
                 (round3 (acc_sum (raw InDir (scan_label label) start_time end_time
                                     (v_in v)))))
    /\ get_field "maxEdge2Amount"
         (result_record (mkAcc 12.346%float 12.346%float 1) (mkAcc 0%float (-1)%float 0))
       = Some (FD_Double
                 (if acc_count (raw InDir (scan_label label) start_time end_time
                                  (v_in v)) =? 0
                  then (-1)%float
                  else round3 (acc_max (raw InDir (scan_label label) start_time end_time
                                          (v_in v)))))
    /\ round3 12.34567%float = 12.346%float.
Proof.
  apply (emitted_values_rounded (parse_as (demo_request 42 100 200))
           (demo_db [transfer_out 8 0 150 12.34567%float] []) "request").
  vm_compute. reflexivity.
Defined.

(** C4 fails as stated on a vertex with one outgoing transfer of amount
    100000000000001 inside the window and no incoming one.  The accumulated
    outgoing sum is that integer, which is its own rounding to three
    decimals, but the emitted sum is 100000000000000.984375: the product by
    1000.0 is not a double.  The accumulated incoming maximum is 0, which
    rounds to 0, but the emitted maximum is the sentinel -1. *)
Lemma rounding_not_exact_half_up :
  emitted (Process (parse_as (demo_request 42 100 200))
             (demo_db [transfer_out 8 0 150 100000000000001%float] []) "request")
  = Some (result_record
            (mkAcc 100000000000000.984375%float 100000000000000.984375%float 1)
            (mkAcc 0%float (-1)%float 0))
  /\ acc_sum (raw OutDir 3 100 200 [transfer_out 8 0 150 100000000000001%float])
     = 100000000000001%float
  /\ half_up_3_decimals 100000000000001%float = 100000000000001%float
  /\ (100000000000000.984375 =? 100000000000001)%float = false
  /\ acc_max (raw InDir 3 100 200 []) = 0%float
  /\ half_up_3_decimals 0%float = 0%float
  /\ (-1 =? 0)%float = false.
Proof. vm_compute. repeat split. Qed.

(** * Further properties *)

(** ** Cursors built by the constructor, Next, Reset and the factories *)

Lemma nexts_run (d : Direction) (es : list Edge) (lid : Z) (n : nat) : forall pos,
  exists it,
    nexts n (mkLabeled (@mkEdgeIterator d es pos) lid (label_at es pos lid)) = Ok it
    /\ consistent it
    /\ lid_ it = lid
    /\ it_edges (base it) = es
    /\ (pos <= it_pos (base it) <= pos + n)%nat
    /\ (valid_ it = true <->
        forall i, (i <= n)%nat -> label_at es (pos + i) lid = true)
    /\ (valid_ it = true -> it_pos (base it) = (pos + n)%nat).
Proof.
  induction n as [|n IH]; intros pos.
  - eexists. split; [reflexivity|]. simpl.
    split; [reflexivity|]. split; [reflexivity|]. split; [reflexivity|].
    split; [lia|]. split; [|intros _; lia].
    split.
    + intros Hv i Hi. replace i with O by lia. rewrite Nat.add_0_r. exact Hv.
    + intros H. specialize (H O ltac:(lia)). rewrite Nat.add_0_r in H. exact H.
  - simpl. destruct (label_at es pos lid) eqn:Hl.
    + unfold label_at in Hl. destruct (es !! pos) as [e|] eqn:He; [|discriminate].
      rewrite (Next_valid es pos lid e He). simpl.
      destruct (IH (S pos)) as (it & Hn & Hc & Hlid & Hes & Hpos & Hiff & Hat).
      exists it. split; [exact Hn|].
      split; [exact Hc|]. split; [exact Hlid|]. split; [exact Hes|].
      split; [lia|]. split; [|intros Hv; rewrite (Hat Hv); lia].
      split.
      * intros Hv i Hi. destruct i as [|i].
        -- rewrite Nat.add_0_r. unfold label_at. rewrite He. exact Hl.
        -- replace (pos + S i)%nat with (S pos + i)%nat by lia.
           apply Hiff; [exact Hv | lia].
      * intros H. apply Hiff. intros i Hi.
        replace (S pos + i)%nat with (pos + S i)%nat by lia. apply H. lia.
    + rewrite Next_invalid by reflexivity. simpl.
      rewrite nexts_invalid by reflexivity.
      eexists. split; [reflexivity|]. simpl.
      split; [unfold consistent; simpl; symmetry; exact Hl|].
      split; [reflexivity|]. split; [reflexivity|]. split; [lia|].
      split; [|discriminate].
      split; [discriminate|].
      intros H. specialize (H O ltac:(lia)). rewrite Nat.add_0_r in H. congruence.
Qed.

(** A labeled cursor built on a raw cursor and advanced by any number of
    Next calls never raises and keeps its flag in agreement with the raw
    cursor.  After [n] calls it is valid exactly when the edge it was built
    on and the [n] edges after it all carry the label, and it is then [n]
    positions further: the cursor walks one unbroken run of the label and
    never reaches a later edge of the label behind an edge of another. *)
Theorem labeled_cursor_walks_one_run (d : Direction) (eit : EdgeIterator d)
    (lid : Z) (n : nat) :
  exists it0 it,
    LabeledEdgeIterator_new eit lid = Ok it0
    /\ nexts n it0 = Ok it
    /\ consistent it
    /\ lid_ it = lid
    /\ it_edges (base it) = it_edges eit
    /\ (IsValid it = true <->
        forall i, (i <= n)%nat -> label_at (it_edges eit) (it_pos eit + i) lid = true)
    /\ (IsValid it = true -> it_pos (base it) = (it_pos eit + n)%nat).
Proof.
  destruct eit as [es pos].
  destruct (nexts_run d es lid n pos) as (it & Hn & Hc & Hlid & Hes & _ & Hiff & Hat).
  eexists _, it. split; [apply LabeledEdgeIterator_new_ok|].
  simpl. repeat split; try assumption; apply Hiff.
Qed.

Lemma to_uint16_mod (x : Z) : to_uint16 x = x mod 65536.
Proof. reflexivity. Qed.

Lemma to_int64_to_uint64 (x : Z) : to_int64 (to_uint64 x) = to_int64 x.
Proof.
  unfold to_int64, to_uint64, wrap_signed, wrap_unsigned. f_equal.
  rewrite Zplus_mod_idemp_l. reflexivity.
Qed.

(** Reset never raises and does not look at the flag or the label the
    cursor had: whatever they were, also on a cursor that had become
    invalid, the cursor after Reset carries the new label reduced to 16
    bits, sits where Goto put the raw cursor for the locator with the
    vertex as source (outgoing) or destination (incoming), and is valid
    exactly when that position holds an edge of the new label.  A vertex
    identifier in the int64_t range reaches the locator unchanged.  The
    overload over a vertex iterator is Reset at the vertex of the iterator
    with tid 0, and raises when the vertex iterator is invalid. *)
Theorem Reset_revalidates (d : Direction)
    (Goto : EdgeIterator d -> EdgeUid -> EdgeIterator d)
    (it : LabeledEdgeIterator d) (vid lid tid : Z) :
  exists it',
    Reset Goto it vid lid tid = Ok it'
    /\ (forall l v, Reset Goto (mkLabeled (base it) l v) vid lid tid = Ok it')
    /\ consistent it'
    /\ lid_ it' = lid mod 65536
    /\ base it' = Goto (base it) (reset_locator d (to_int64 vid) lid tid)
    /\ (- 2 ^ 63 <= vid < 2 ^ 63 ->
        base it' = Goto (base it) (reset_locator d vid lid tid))
    /\ (forall vit, vit_GetId vit = Ok vid ->
        Reset_vit Goto it vit lid = Reset Goto it vid lid 0)
    /\ (forall vit e, vit_GetId vit = Throw e -> Reset_vit Goto it vit lid = Throw e).
Proof.
  assert (Hbase : match d with
                  | OutDir => Goto (base it)
                                (mkEdgeUid (to_int64 (to_uint64 vid)) 0 (to_uint16 lid) tid 0)
                  | InDir => Goto (base it)
                               (mkEdgeUid 0 (to_int64 (to_uint64 vid)) (to_uint16 lid) tid 0)
                  end = Goto (base it) (reset_locator d (to_int64 vid) lid tid)).
  { rewrite to_int64_to_uint64, to_uint16_mod. destruct d; reflexivity. }
  eexists. split; [|split].
  - unfold Reset. rewrite label_matches_valid. reflexivity.
  - intros l v. unfold Reset. rewrite label_matches_valid. reflexivity.
  - cbn [base lid_ valid_]. unfold consistent. cbn [base lid_ valid_].
    repeat split.
    + exact Hbase.
    + intros Hvid. rewrite Hbase. rewrite to_int64_small by exact Hvid. reflexivity.
    + intros vit Hvit. unfold Reset_vit. rewrite Hvit. reflexivity.
    + intros vit e Hvit. unfold Reset_vit. rewrite Hvit. reflexivity.
Qed.

(** The two factories over a transaction seek with the vertex as source
    (outgoing) or destination (incoming) and the label reduced to 16 bits.
    When the store call raises, the factory raises the same exception and
    adds nothing to the trace; when it gives a raw cursor, the labeled
    cursor is on it, carries the reduced label and is valid exactly when
    the raw cursor is on an edge of that label. *)
Theorem transaction_factories (getOut : EdgeUid -> Txn OutEdgeIterator)
    (getIn : EdgeUid -> Txn InEdgeIterator) (vid lid tid : Z) (tr : list StoreCall) :
  LabeledOutEdgeIterator_txn getOut vid lid tid tr
  = (fst (getOut (mkEdgeUid vid 0 (lid mod 65536) tid 0) tr),
     eit <- snd (getOut (mkEdgeUid vid 0 (lid mod 65536) tid 0) tr) ;;
     Ok (mkLabeled eit (lid mod 65536)
           (label_at (it_edges eit) (it_pos eit) (lid mod 65536))))
  /\ LabeledInEdgeIterator_txn getIn vid lid tid tr
     = (fst (getIn (mkEdgeUid 0 vid (lid mod 65536) tid 0) tr),
        eit <- snd (getIn (mkEdgeUid 0 vid (lid mod 65536) tid 0) tr) ;;
        Ok (mkLabeled eit (lid mod 65536)
              (label_at (it_edges eit) (it_pos eit) (lid mod 65536)))).
Proof.
  unfold LabeledOutEdgeIterator_txn, LabeledInEdgeIterator_txn, tbind, lift.
  rewrite to_uint16_mod. split.
  - destruct (getOut _ tr) as [tr' [eit|e]]; simpl; [|reflexivity].
    rewrite LabeledEdgeIterator_new_ok. reflexivity.
  - destruct (getIn _ tr) as [tr' [eit|e]]; simpl; [|reflexivity].
    rewrite LabeledEdgeIterator_new_ok. reflexivity.
Qed.

(** ** The answer of [Process], field by field *)

Lemma Process_fields (json_parse : string -> result json) (db : GraphDB)
    (request : string) (id start_time end_time vid label : Z) (v : VertexData)
    (d : Direction) :
  parse_request json_parse request = Ok (id, start_time, end_time) ->
  db_unique_index db !! (ACCOUNT_LABEL, ACCOUNT_ID, id) = Some vid ->
  db_vertices db !! vid = Some v ->
  db_edge_labels db !! TRANSFER_LABEL = Some label ->
  exists r,
    emitted (Process json_parse db request) = Some r
    /\ get_field (sum_field d) r
       = Some (FD_Double (acc_sum (finalize (raw d (scan_label label) start_time end_time
                                               (dir_edges d v)))))
    /\ get_field (max_field d) r
       = Some (FD_Double (acc_max (finalize (raw d (scan_label label) start_time end_time
                                               (dir_edges d v)))))
    /\ get_field (num_field d) r
       = Some (FD_Int64 (acc_count (finalize (raw d (scan_label label) start_time end_time
                                                (dir_edges d v))))).
Proof.
  intros Hp Hi Hv Hl.
  rewrite (Process_ok json_parse db request id start_time end_time vid v label Hp Hi Hv Hl).
  eexists. split; [reflexivity|].
  destruct d; repeat split.
Qed.

Lemma finalize_empty (d : Direction) (lid start_time end_time : Z) (es : list Edge) :
  window d lid start_time end_time es = [] ->
  finalize (raw d lid start_time end_time es) = mkAcc 0%float (-1)%float 0.
Proof.
  intros Hw. unfold raw. rewrite Hw. simpl.
  unfold finalize. simpl. rewrite round3_zero. reflexivity.
Qed.

Lemma window_no_label (d : Direction) (lid start_time end_time : Z) (es : list Edge) :
  Forall (fun e => e_lid e <> lid) es ->
  window d lid start_time end_time es = [].
Proof.
  intros H. unfold window.
  apply (Forall_drop _ (seek_pos d lid start_time es)) in H.
  destruct (drop (seek_pos d lid start_time es) es) as [|e rest]; [reflexivity|].
  inversion H as [|? ? He _]; subst. simpl.
  destruct (Z.eqb_spec (e_lid e) lid) as [?|_]; [contradiction | reflexivity].
Qed.

Lemma window_empty_interval (d : Direction) (lid start_time end_time : Z) (es : list Edge) :
  store_ordered d es ->
  end_time <= start_time + 1 ->
  window d lid start_time end_time es = [].
Proof.
  intros Hord Hint. rewrite (window_ordered d lid start_time end_time es Hord).
  apply filter_none. apply Forall_forall. intros e _ [_ Ht]. lia.
Qed.

Lemma fold_accum_sum (l : list Edge) : forall a,
  acc_sum (fold_left accum l a)
  = fold_left (fun s e => (s + e_amount e)%float) l (acc_sum a).
Proof.
  induction l as [|e l IH]; intros a; simpl; [reflexivity|].
  rewrite IH. reflexivity.
Qed.

(** When the queried vertex has no edge of the transfer label in a
    direction, whatever the order of its edge list, the three fields of
    that direction are sum 0, maximum -1 and count 0. *)
Theorem no_edge_of_label (json_parse : string -> result json) (db : GraphDB)
    (request : string) (id start_time end_time vid label : Z) (v : VertexData)
    (d : Direction) :
  parse_request json_parse request = Ok (id, start_time, end_time) ->
  db_unique_index db !! (ACCOUNT_LABEL, ACCOUNT_ID, id) = Some vid ->
  db_vertices db !! vid = Some v ->
  db_edge_labels db !! TRANSFER_LABEL = Some label ->
  Forall (fun e => e_lid e <> scan_label label) (dir_edges d v) ->
  exists r,
    emitted (Process json_parse db request) = Some r
    /\ get_field (sum_field d) r = Some (FD_Double 0%float)
    /\ get_field (max_field d) r = Some (FD_Double (-1)%float)
    /\ get_field (num_field d) r = Some (FD_Int64 0).
Proof.
  intros Hp Hi Hv Hl Hno.
  destruct (Process_fields json_parse db request id start_time end_time vid label v d
              Hp Hi Hv Hl) as (r & Hr & Hs & Hm & Hn).
  rewrite (finalize_empty d _ _ _ _ (window_no_label d _ start_time end_time _ Hno))
    in Hs, Hm, Hn.
  exists r. auto.
Qed.

Lemma no_edge_of_label_witness :
  exists r,
    emitted (Process (parse_as (demo_request 42 100 200))
               (demo_db [mkEdge 7 8 2 150 0 150 9%float; mkEdge 7 8 4 150 1 150 4%float] [])
               "request") = Some r
    /\ get_field (sum_field OutDir) r = Some (FD_Double 0%float)
    /\ get_field (max_field OutDir) r = Some (FD_Double (-1)%float)
    /\ get_field (num_field OutDir) r = Some (FD_Int64 0).
Proof.
  apply (no_edge_of_label (parse_as (demo_request 42 100 200))
           (demo_db [mkEdge 7 8 2 150 0 150 9%float; mkEdge 7 8 4 150 1 150 4%float] [])
           "request" 42 100 200 7 3
           (mkVertexData [mkEdge 7 8 2 150 0 150 9%float; mkEdge 7 8 4 150 1 150 4%float] [])
           OutDir); try reflexivity.
  repeat constructor; discriminate.
Defined.

(** With an edge list in the order of the store, a window that holds no
    integer (endTime at most startTime + 1, so also an inverted window)
    gives sum 0, maximum -1 and count 0 in that direction. *)
Theorem empty_interval (json_parse : string -> result json) (db : GraphDB)
    (request : string) (id start_time end_time vid label : Z) (v : VertexData)
    (d : Direction) :
  parse_request json_parse request = Ok (id, start_time, end_time) ->
  db_unique_index db !! (ACCOUNT_LABEL, ACCOUNT_ID, id) = Some vid ->
  db_vertices db !! vid = Some v ->
  db_edge_labels db !! TRANSFER_LABEL = Some label ->
  store_ordered d (dir_edges d v) ->
  end_time <= start_time + 1 ->
  exists r,
    emitted (Process json_parse db request) = Some r
    /\ get_field (sum_field d) r = Some (FD_Double 0%float)
    /\ get_field (max_field d) r = Some (FD_Double (-1)%float)
    /\ get_field (num_field d) r = Some (FD_Int64 0).
Proof.
  intros Hp Hi Hv Hl Hord Hint.
  destruct (Process_fields json_parse db request id start_time end_time vid label v d
              Hp Hi Hv Hl) as (r & Hr & Hs & Hm & Hn).
  rewrite (finalize_empty d _ _ _ _
             (window_empty_interval d _ start_time end_time _ Hord Hint))
    in Hs, Hm, Hn.
  exists r. auto.
Qed.

Lemma empty_interval_witness :
  exists r,
    emitted (Process (parse_as (demo_request 42 150 100))
               (demo_db [transfer_out 8 0 120 5%float; transfer_out 9 1 150 10%float] [])
               "request") = Some r
    /\ get_field (sum_field OutDir) r = Some (FD_Double 0%float)
    /\ get_field (max_field OutDir) r = Some (FD_Double (-1)%float)
    /\ get_field (num_field OutDir) r = Some (FD_Int64 0).
Proof.
  apply (empty_interval (parse_as (demo_request 42 150 100))
           (demo_db [transfer_out 8 0 120 5%float; transfer_out 9 1 150 10%float] [])
           "request" 42 150 100 7 3
           (mkVertexData [transfer_out 8 0 120 5%float; transfer_out 9 1 150 10%float] [])
           OutDir); try reflexivity.
  - split; repeat constructor.
  - lia.
Defined.

(** With an edge list in the order of the store and fewer than 2^63 edges,
    the emitted count of a direction is the number of edges of the transfer
    label whose timestamp is strictly between startTime and endTime, and
    the emitted sum is [round(s * 1000.0) / 1000] of the sum [s] of their
    amounts, added from 0 in storage order. *)
Theorem count_and_sum_of_window (json_parse : string -> result json) (db : GraphDB)
    (request : string) (id start_time end_time vid label : Z) (v : VertexData)
    (d : Direction) :
  parse_request json_parse request = Ok (id, start_time, end_time) ->
  db_unique_index db !! (ACCOUNT_LABEL, ACCOUNT_ID, id) = Some vid ->
  db_vertices db !! vid = Some v ->
  db_edge_labels db !! TRANSFER_LABEL = Some label ->
  store_ordered d (dir_edges d v) ->
  Z.of_nat (length (dir_edges d v)) < 2 ^ 63 ->
  exists r,
    emitted (Process json_parse db request) = Some r
    /\ get_field (num_field d) r
       = Some (FD_Int64
                 (Z.of_nat (length (filter (in_window (scan_label label) start_time end_time)
                                      (dir_edges d v)))))
    /\ get_field (sum_field d) r
       = Some (FD_Double
                 (round3 (sum_amounts
                            (filter (in_window (scan_label label) start_time end_time)
                               (dir_edges d v))))).
Proof.
  intros Hp Hi Hv Hl Hord Hlen.
  destruct (Process_fields json_parse db request id start_time end_time vid label v d
              Hp Hi Hv Hl) as (r & Hr & Hs & Hm & Hn).
  exists r. split; [exact Hr|]. split.
  - rewrite Hn. simpl acc_count.
    rewrite (raw_count_exact _ _ _ _ _ Hlen).
    rewrite (window_ordered d _ start_time end_time _ Hord). reflexivity.
  - rewrite Hs. simpl acc_sum. unfold raw.
    rewrite fold_accum_sum.
    rewrite (window_ordered d _ start_time end_time _ Hord). reflexivity.
Qed.

Lemma count_and_sum_of_window_witness :
  exists r,
    emitted (Process (parse_as (demo_request 42 100 200))
               (demo_db [] [transfer_in 8 0 100 1%float; transfer_in 8 1 120 2.5%float;
                            transfer_in 9 2 180 4%float; transfer_in 9 3 200 8%float])
               "request") = Some r
    /\ get_field (num_field InDir) r
       = Some (FD_Int64
                 (Z.of_nat (length (filter (in_window (scan_label 3) 100 200)
                                      (dir_edges InDir
                                         (mkVertexData []
                                            [transfer_in 8 0 100 1%float;
                                             transfer_in 8 1 120 2.5%float;
                                             transfer_in 9 2 180 4%float;
                                             transfer_in 9 3 200 8%float]))))))
    /\ get_field (sum_field InDir) r
       = Some (FD_Double
                 (round3 (sum_amounts
                            (filter (in_window (scan_label 3) 100 200)
                               (dir_edges InDir
                                  (mkVertexData []
                                     [transfer_in 8 0 100 1%float;
                                      transfer_in 8 1 120 2.5%float;
                                      transfer_in 9 2 180 4%float;
                                      transfer_in 9 3 200 8%float])))))).
Proof.
  apply (count_and_sum_of_window (parse_as (demo_request 42 100 200))
           (demo_db [] [transfer_in 8 0 100 1%float; transfer_in 8 1 120 2.5%float;
                        transfer_in 9 2 180 4%float; transfer_in 9 3 200 8%float])
           "request" 42 100 200 7 3
           (mkVertexData [] [transfer_in 8 0 100 1%float; transfer_in 8 1 120 2.5%float;
                             transfer_in 9 2 180 4%float; transfer_in 9 3 200 8%float])
           InDir); try reflexivity.
  split; repeat constructor.
Defined.

(** ** The order of doubles and the running maximum *)

Section FloatOrder.
Local Open Scope float_scope.

Lemma SFltb_key (x y : spec_float) :
  SFltb x y = true <->
  x <> S754_nan /\ y <> S754_nan /\ lex_lt (sf_key x) (sf_key y).
Proof.
  unfold SFltb.
  destruct x as [[]|[]| |[] mx ex], y as [[]|[]| |[] my ey]; simpl;
    try (split; [discriminate | intros (Hx & Hy & H); try congruence; lia]);
    try (split; [intros _; repeat split; try discriminate; lia | reflexivity]).
  - change (Pos.compare_cont Eq mx my) with (Pos.compare mx my).
    destruct (Z.compare_spec ex ey); [destruct (Pos.compare_spec mx my)| |]; simpl;
      try (split; [discriminate | intros (_ & _ & Hlex); lia]);
      try (split; [intros _; repeat split; try discriminate; lia | reflexivity]).
  - change (Pos.compare_cont Eq mx my) with (Pos.compare mx my).
    destruct (Z.compare_spec ex ey); [destruct (Pos.compare_spec mx my)| |]; simpl;
      try (split; [discriminate | intros (_ & _ & Hlex); lia]);
      try (split; [intros _; repeat split; try discriminate; lia | reflexivity]).
Qed.

Lemma ltb_key (x y : float) :
  (x <? y) = true <->
  Prim2SF x <> S754_nan /\ Prim2SF y <> S754_nan
  /\ lex_lt (sf_key (Prim2SF x)) (sf_key (Prim2SF y)).
Proof. rewrite FloatAxioms.ltb_spec. apply SFltb_key. Qed.

Lemma ltb_irrefl (x : float) : (x <? x) = false.
Proof.
  destruct (x <? x) eqn:H; [|reflexivity].
  apply ltb_key in H. destruct H as (_ & _ & H).
  unfold lex_lt in H. destruct (sf_key (Prim2SF x)) as [[a b] c]. lia.
Qed.

(** A value that is not below [x] stays so when it is replaced by a greater
    one. *)
Lemma ltb_grow (m a x : float) :
  (m <? a) = true -> (m <? x) = false -> (a <? x) = false.
Proof.
  intros Hma Hmx.
  destruct (a <? x) eqn:Hax; [|reflexivity].
  apply ltb_key in Hma, Hax.
  destruct Hma as (Hm & Ha & Hma), Hax as (_ & Hx & Hax).
  assert (Hmx' : (m <? x) = true).
  { apply ltb_key. repeat split; try assumption.
    unfold lex_lt in *.
    destruct (sf_key (Prim2SF m)) as [[m1 m2] m3], (sf_key (Prim2SF a)) as [[a1 a2] a3],
      (sf_key (Prim2SF x)) as [[x1 x2] x3]. lia. }
  congruence.
Qed.
End FloatOrder.

Lemma fold_accum_max_grows (l : list Edge) : forall a x,
  (acc_max a <? x)%float = false ->
  (acc_max (fold_left accum l a) <? x)%float = false.
Proof.
  induction l as [|e l IH]; intros a x Hx; simpl; [exact Hx|].
  apply IH. unfold accum, accumulate. simpl.
  destruct (acc_max a <? e_amount e)%float eqn:Hlt; [|exact Hx].
  exact (ltb_grow _ _ _ Hlt Hx).
Qed.

Lemma fold_accum_max_upper (l : list Edge) : forall a,
  Forall (fun e => (acc_max (fold_left accum l a) <? e_amount e)%float = false) l.
Proof.
  induction l as [|e l IH]; intros a; simpl; constructor.
  - apply fold_accum_max_grows. unfold accum, accumulate. simpl.
    destruct (acc_max a <? e_amount e)%float eqn:Hlt; [apply ltb_irrefl | exact Hlt].
  - apply IH.
Qed.

Lemma fold_accum_max_attained (l : list Edge) : forall a,
  acc_max (fold_left accum l a) = acc_max a
  \/ exists e, e ∈ l /\ acc_max (fold_left accum l a) = e_amount e.
Proof.
  induction l as [|e l IH]; intros a; simpl; [left; reflexivity|].
  destruct (IH (accum a e)) as [H|(e' & He' & H)].
  - rewrite H. unfold accum, accumulate. simpl.
    destruct (acc_max a <? e_amount e)%float; [right | left; reflexivity].
    exists e. split; [constructor | reflexivity].
  - right. exists e'. split; [constructor; exact He' | exact H].
Qed.

(** With an edge list in the order of the store, fewer than 2^63 edges and
    at least one edge of the label strictly inside the window, the emitted
    maximum of the direction is [round(M * 1000.0) / 1000] of a running
    maximum [M] that no amount inside the window exceeds, and [M] is the
    amount of one of these edges or the initial 0. *)
Theorem maximum_of_window (json_parse : string -> result json) (db : GraphDB)
    (request : string) (id start_time end_time vid label : Z) (v : VertexData)
    (d : Direction) :
  parse_request json_parse request = Ok (id, start_time, end_time) ->
  db_unique_index db !! (ACCOUNT_LABEL, ACCOUNT_ID, id) = Some vid ->
  db_vertices db !! vid = Some v ->
  db_edge_labels db !! TRANSFER_LABEL = Some label ->
  store_ordered d (dir_edges d v) ->
  Z.of_nat (length (dir_edges d v)) < 2 ^ 63 ->
  filter (in_window (scan_label label) start_time end_time) (dir_edges d v) <> [] ->
  exists r M,
    emitted (Process json_parse db request) = Some r
    /\ get_field (max_field d) r = Some (FD_Double (round3 M))
    /\ Forall (fun e => (M <? e_amount e)%float = false)
         (filter (in_window (scan_label label) start_time end_time) (dir_edges d v))
    /\ (M = 0%float
        \/ exists e,
             e ∈ filter (in_window (scan_label label) start_time end_time) (dir_edges d v)
             /\ M = e_amount e).
Proof.
  intros Hp Hi Hv Hl Hord Hlen Hne.
  destruct (Process_fields json_parse db request id start_time end_time vid label v d
              Hp Hi Hv Hl) as (r & Hr & _ & Hm & _).
  pose proof (window_ordered d (scan_label label) start_time end_time _ Hord) as Hw.
  exists r, (acc_max (raw d (scan_label label) start_time end_time (dir_edges d v))).
  split; [exact Hr|]. split; [|split].
  - rewrite Hm. unfold finalize. simpl.
    destruct (Z.eqb_spec (acc_count (raw d (scan_label label) start_time end_time
                                       (dir_edges d v))) 0) as [H0|_]; [|reflexivity].
    rewrite (raw_count_exact _ _ _ _ _ Hlen), Hw in H0.
    destruct (filter _ _); [contradiction | simpl in H0; lia].
  - rewrite <- Hw. apply fold_accum_max_upper.
  - rewrite <- Hw. apply (fold_accum_max_attained _ acc0).
Qed.

Lemma maximum_of_window_witness :
  exists r M,
    emitted (Process (parse_as (demo_request 42 100 200))
               (demo_db [transfer_out 8 0 120 2.5%float; transfer_out 9 1 150 10%float;
                         transfer_out 9 2 180 4%float] [])
               "request") = Some r
    /\ get_field (max_field OutDir) r = Some (FD_Double (round3 M))
    /\ Forall (fun e => (M <? e_amount e)%float = false)
         (filter (in_window (scan_label 3) 100 200)
            (dir_edges OutDir
               (mkVertexData [transfer_out 8 0 120 2.5%float; transfer_out 9 1 150 10%float;
                              transfer_out 9 2 180 4%float] [])))
    /\ (M = 0%float
        \/ exists e,
             e ∈ filter (in_window (scan_label 3) 100 200)
                   (dir_edges OutDir
                      (mkVertexData [transfer_out 8 0 120 2.5%float;
                                     transfer_out 9 1 150 10%float;
                                     transfer_out 9 2 180 4%float] []))
             /\ M = e_amount e).
Proof.
  apply (maximum_of_window (parse_as (demo_request 42 100 200))
           (demo_db [transfer_out 8 0 120 2.5%float; transfer_out 9 1 150 10%float;
                     transfer_out 9 2 180 4%float] [])
           "request" 42 100 200 7 3
           (mkVertexData [transfer_out 8 0 120 2.5%float; transfer_out 9 1 150 10%float;
                          transfer_out 9 2 180 4%float] [])
           OutDir); try reflexivity.
  - split; repeat constructor.
  - vm_compute. discriminate.
Defined.

(** ** The emitted maximum is a number *)

Section NoNaN.
Local Open Scope float_scope.

Lemma shr_1_nonneg (mrs : shr_record) : (0 <= shr_m mrs)%Z -> (0 <= shr_m (shr_1 mrs))%Z.
Proof.
  destruct mrs as [m r s]. simpl.
  destruct m as [|[p|p|]|p]; simpl; lia.
Qed.

Lemma iter_pos_keeps {A : Type} (P : A -> Prop) (f : A -> A) :
  (forall x, P x -> P (f x)) -> forall p x, P x -> P (SpecFloat.iter_pos f p x).
Proof.
  intros Hf. induction p as [p IH|p IH|]; intros x Hx; simpl.
  - apply IH, IH, Hf, Hx.
  - apply IH, IH, Hx.
  - apply Hf, Hx.
Qed.

Lemma shr_fexp_nonneg (m e : Z) (l : location) :
  (0 <= m)%Z -> (0 <= shr_m (fst (shr_fexp prec emax m e l)))%Z.
Proof.
  intros Hm. unfold shr_fexp, shr.
  assert (H0 : (0 <= shr_m (shr_record_of_loc m l))%Z)
    by (destruct l as [|[]]; exact Hm).
  destruct (fexp prec emax (Zdigits2 m + e) - e)%Z as [|p|p]; simpl; try exact H0.
  apply (iter_pos_keeps (fun mrs => (0 <= shr_m mrs)%Z)); [apply shr_1_nonneg | exact H0].
Qed.

Lemma round_nearest_even_nonneg (m : Z) (l : location) :
  (0 <= m)%Z -> (0 <= round_nearest_even m l)%Z.
Proof.
  intros Hm. unfold round_nearest_even.
  destruct l as [|[]]; try lia. destruct (Z.even m); lia.
Qed.

Lemma binary_round_aux_plain (mx ex : Z) (lx : location) :
  (0 <= mx)%Z -> sf_plain (binary_round_aux prec emax false mx ex lx) = true.
Proof.
  intros Hm. unfold binary_round_aux.
  pose proof (shr_fexp_nonneg mx ex lx Hm) as H1.
  destruct (shr_fexp prec emax mx ex lx) as [mrs' e']. simpl in H1.
  pose proof (shr_fexp_nonneg _ e' loc_Exact
                (round_nearest_even_nonneg _ (loc_of_shr_record mrs') H1)) as H2.
  destruct (shr_fexp prec emax _ e' loc_Exact) as [mrs'' e'']. simpl in H2.
  destruct (shr_m mrs'') as [|p|p]; [reflexivity | | lia].
  destruct (e'' <=? emax - prec)%Z; reflexivity.
Qed.

Lemma SFmul_plain (x : spec_float) (my : positive) (ey : Z) :
  sf_plain x = true -> sf_plain (SFmul prec emax x (S754_finite false my ey)) = true.
Proof.
  destruct x as [[]|[]| |[] mx ex]; simpl; try reflexivity; try discriminate.
  intros _. apply binary_round_aux_plain. lia.
Qed.

Lemma SFdiv_plain (x : spec_float) (my : positive) (ey : Z) :
  sf_plain x = true -> sf_plain (SFdiv prec emax x (S754_finite false my ey)) = true.
Proof.
  destruct x as [[]|[]| |[] mx ex]; simpl; try reflexivity; try discriminate.
  intros _. unfold SFdiv_core_binary.
  set (m' := match _ with Z0 => _ | Z.pos _ => _ | Z.neg _ => _ end).
  assert (Hm' : (0 <= m')%Z).
  { subst m'. destruct (_ - _ - _)%Z; try lia.
    rewrite Z.shiftl_mul_pow2 by lia. apply Z.mul_nonneg_nonneg; [lia|].
    apply Z.pow_nonneg. lia. }
  pose proof (Z.div_pos m' (Z.pos my) Hm' ltac:(lia)) as Hq.
  unfold Z.div in Hq.
  destruct (Z.div_eucl m' (Z.pos my)) as [q r].
  apply binary_round_aux_plain. exact Hq.
Qed.

Lemma of_uint63_plain (n : int) : plain (of_uint63 n) = true.
Proof.
  unfold plain. rewrite FloatAxioms.of_uint63_spec.
  pose proof (Uint63.to_Z_bounded n) as [Hn _].
  unfold binary_normalize.
  destruct (Uint63.to_Z n) as [|p|p]; [reflexivity | | lia].
  unfold binary_round.
  destruct (shl_align p 0 _) as [mz ez].
  apply binary_round_aux_plain. lia.
Qed.

Lemma round_plain (x : float) : plain x = true -> plain (round x) = true.
Proof.
  unfold round. intros H.
  destruct (Prim2SF x) as [s|s| |s m e] eqn:Hx; try exact H.
  destruct (0 <=? e)%Z; [exact H|].
  unfold plain in H. rewrite Hx in H. destruct s; [discriminate|].
  apply of_uint63_plain.
Qed.

Lemma round3_plain (v : float) : plain v = true -> plain (round3 v) = true.
Proof.
  intros H. unfold round3, plain.
  rewrite FloatAxioms.div_spec.
  change (Prim2SF 1000) with (S754_finite false 8796093022208000 (-43)).
  apply SFdiv_plain. apply round_plain. unfold plain.
  rewrite FloatAxioms.mul_spec.
  change (Prim2SF 1000) with (S754_finite false 8796093022208000 (-43)).
  apply SFmul_plain. exact H.
Qed.

Lemma ltb_plain (x y : float) : plain x = true -> (x <? y) = true -> plain y = true.
Proof.
  unfold plain. rewrite FloatAxioms.ltb_spec.
  destruct (Prim2SF x) as [[]|[]| |[] mx ex], (Prim2SF y) as [[]|[]| |[] my ey];
    simpl; try reflexivity; try discriminate.
Qed.

Lemma plain_not_NaN (x : float) : plain x = true -> ~ is_NaN x.
Proof. unfold plain, is_NaN. intros H Hn. rewrite Hn in H. discriminate. Qed.

Lemma plain_not_below_zero (x : float) : plain x = true -> (x <? 0) = false.
Proof.
  unfold plain. rewrite FloatAxioms.ltb_spec.
  change (Prim2SF 0) with (S754_zero false).
  destruct (Prim2SF x) as [[]|[]| |[] mx ex]; simpl; try reflexivity; try discriminate.
Qed.
End NoNaN.

Lemma fold_accum_max_plain (l : list Edge) : forall a,
  plain (acc_max a) = true -> plain (acc_max (fold_left accum l a)) = true.
Proof.
  induction l as [|e l IH]; intros a Ha; simpl; [exact Ha|].
  apply IH. unfold accum, accumulate. simpl.
  destruct (acc_max a <? e_amount e)%float eqn:Hlt; [|exact Ha].
  exact (ltb_plain _ _ Ha Hlt).
Qed.

(** Whatever the amounts in the store are, NaN and infinities included,
    and whatever the order of the edge lists, an emitted maximum is never
    NaN: it is the sentinel -1 with a count of 0, or with a count other
    than 0 it is +0, a positive finite double or +infinity.  A maximum
    below zero is therefore always the sentinel. *)
Theorem emitted_maximum_range (json_parse : string -> result json) (db : GraphDB)
    (request : string) (r : Record_) (d : Direction) :
  emitted (Process json_parse db request) = Some r ->
  exists m n,
    get_field (max_field d) r = Some (FD_Double m)
    /\ get_field (num_field d) r = Some (FD_Int64 n)
    /\ ~ is_NaN m
    /\ ((n = 0 /\ m = (-1)%float) \/ (n <> 0 /\ plain m = true))
    /\ ((m <? 0)%float = true -> n = 0 /\ m = (-1)%float).
Proof.
  intros Hr.
  destruct (Process_emitted json_parse db request r Hr)
    as (id & st & et & vid & v & label & Hp & Hi & Hv & Hl & ->).
  assert (Hgen : forall a, plain (acc_max a) = true ->
            ~ is_NaN (acc_max (finalize a))
            /\ ((acc_count (finalize a) = 0 /\ acc_max (finalize a) = (-1)%float)
                \/ (acc_count (finalize a) <> 0 /\ plain (acc_max (finalize a)) = true))
            /\ ((acc_max (finalize a) <? 0)%float = true ->
                acc_count (finalize a) = 0 /\ acc_max (finalize a) = (-1)%float)).
  { intros a Ha. unfold finalize. simpl.
    pose proof (round3_plain _ Ha) as Hp3.
    destruct (Z.eqb_spec (acc_count a) 0) as [H0|H0].
    - split; [unfold is_NaN; discriminate|]. split; [left; auto | auto].
    - split; [apply plain_not_NaN; exact Hp3|]. split; [right; auto|].
      rewrite (plain_not_below_zero _ Hp3). discriminate. }
  destruct d; eexists _, _; (split; [reflexivity|]); (split; [reflexivity|]);
    apply Hgen; apply fold_accum_max_plain; reflexivity.
Qed.

Lemma emitted_maximum_range_witness :
  exists m n,
    get_field (max_field OutDir)
      (result_record (mkAcc nan infinity 2) (mkAcc 0%float (-1)%float 0))
    = Some (FD_Double m)
    /\ get_field (num_field OutDir)
         (result_record (mkAcc nan infinity 2) (mkAcc 0%float (-1)%float 0))
       = Some (FD_Int64 n)
    /\ ~ is_NaN m
    /\ ((n = 0 /\ m = (-1)%float) \/ (n <> 0 /\ plain m = true))
    /\ ((m <? 0)%float = true -> n = 0 /\ m = (-1)%float).
Proof.
  apply (emitted_maximum_range (parse_as (demo_request 42 100 200))
           (demo_db [transfer_out 8 0 150 nan; transfer_out 9 1 160 infinity] [])
           "request").
  vm_compute. reflexivity.
Defined.

(** ** A NaN amount *)

Section NaNSum.
Local Open Scope float_scope.

Lemma add_NaN_l (x y : float) : is_NaN x -> is_NaN (x + y).
Proof.
  unfold is_NaN. intros H. rewrite FloatAxioms.add_spec, H. reflexivity.
Qed.

Lemma add_NaN_r (x y : float) : is_NaN y -> is_NaN (x + y).
Proof.
  unfold is_NaN. intros H. rewrite FloatAxioms.add_spec, H.
  destruct (Prim2SF x) as [[]|[]| |[] m e]; reflexivity.
Qed.

Lemma round3_NaN (v : float) : is_NaN v -> is_NaN (round3 v).
Proof.
  unfold is_NaN, round3. intros H.
  assert (Hm : Prim2SF (v * 1000) = S754_nan)
    by (rewrite FloatAxioms.mul_spec, H; reflexivity).
  assert (Hr : Prim2SF (round (v * 1000)) = S754_nan)
    by (unfold round; rewrite Hm; exact Hm).
  rewrite FloatAxioms.div_spec, Hr. reflexivity.
Qed.
End NaNSum.

Lemma fold_sum_NaN (l : list Edge) : forall s,
  is_NaN s -> is_NaN (fold_left (fun s e => (s + e_amount e)%float) l s).
Proof.
  induction l as [|e l IH]; intros s Hs; simpl; [exact Hs|].
  apply IH, add_NaN_l, Hs.
Qed.

Lemma fold_sum_NaN_amount (l : list Edge) : forall s e,
  e ∈ l -> is_NaN (e_amount e) ->
  is_NaN (fold_left (fun s e => (s + e_amount e)%float) l s).
Proof.
  induction l as [|x l IH]; intros s e He Hn; [inversion He|].
  simpl. apply elem_of_cons in He. destruct He as [->|He].
  - apply fold_sum_NaN, add_NaN_r, Hn.
  - apply (IH _ e He Hn).
Qed.

(** With an edge list in the order of the store, one edge of the label
    strictly inside the window whose amount is NaN makes the emitted sum of
    the direction NaN, whatever the other amounts are. *)
Theorem NaN_amount_poisons_sum (json_parse : string -> result json) (db : GraphDB)
    (request : string) (id start_time end_time vid label : Z) (v : VertexData)
    (d : Direction) (e : Edge) :
  parse_request json_parse request = Ok (id, start_time, end_time) ->
  db_unique_index db !! (ACCOUNT_LABEL, ACCOUNT_ID, id) = Some vid ->
  db_vertices db !! vid = Some v ->
  db_edge_labels db !! TRANSFER_LABEL = Some label ->
  store_ordered d (dir_edges d v) ->
  e ∈ dir_edges d v ->
  in_window (scan_label label) start_time end_time e ->
  is_NaN (e_amount e) ->
  exists r s,
    emitted (Process json_parse db request) = Some r
    /\ get_field (sum_field d) r = Some (FD_Double s)
    /\ is_NaN s.
Proof.
  intros Hp Hi Hv Hl Hord He Hin Hn.
  destruct (Process_fields json_parse db request id start_time end_time vid label v d
              Hp Hi Hv Hl) as (r & Hr & Hs & _ & _).
  exists r. eexists. split; [exact Hr|]. split; [exact Hs|].
  simpl. apply round3_NaN. unfold raw. rewrite fold_accum_sum.
  apply (fold_sum_NaN_amount _ _ e); [|exact Hn].
  rewrite (window_ordered d _ start_time end_time _ Hord).
  apply list_elem_of_filter. split; assumption.
Qed.

Lemma NaN_amount_poisons_sum_witness :
  exists r s,
    emitted (Process (parse_as (demo_request 42 100 200))
               (demo_db [transfer_out 8 0 150 nan; transfer_out 9 1 160 3%float] [])
               "request") = Some r
    /\ get_field (sum_field OutDir) r = Some (FD_Double s)
    /\ is_NaN s.
Proof.
  apply (NaN_amount_poisons_sum (parse_as (demo_request 42 100 200))
           (demo_db [transfer_out 8 0 150 nan; transfer_out 9 1 160 3%float] [])
           "request" 42 100 200 7 3
           (mkVertexData [transfer_out 8 0 150 nan; transfer_out 9 1 160 3%float] [])
           OutDir (transfer_out 8 0 150 nan)); try reflexivity.
  - split; repeat constructor.
  - constructor.
  - split; [reflexivity | simpl; lia].
Defined.

(** ** The label identifier after the two casts *)

Lemma scan_label_mod (label : Z) : scan_label label = label mod 65536.
Proof.
  unfold scan_label, to_uint16, to_int16, wrap_unsigned, wrap_signed.
  change (2 ^ 16) with 65536. change (2 ^ (16 - 1)) with 32768.
  rewrite Zminus_mod_idemp_l. f_equal. lia.
Qed.

(** The label identifier of the edge type goes through an int16_t and a
    uint16_t on its way to the cursor, so only its value modulo 65536
    counts: two stores that differ only in the identifier declared for
    transfer, by a multiple of 65536, get the same outcome and the same
    store calls for every request; an identifier from 0 to 65535 (also
    above 32767, negative as an int16_t) is the label scanned for. *)
Theorem label_id_modulo_65536 (json_parse : string -> result json) (db db' : GraphDB)
    (request : string) (label label' : Z) :
  db_unique_index db = db_unique_index db' ->
  db_vertices db = db_vertices db' ->
  db_edge_labels db !! TRANSFER_LABEL = Some label ->
  db_edge_labels db' !! TRANSFER_LABEL = Some label' ->
  label mod 65536 = label' mod 65536 ->
  Process json_parse db request = Process json_parse db' request
  /\ (0 <= label < 65536 -> scan_label label = label).
Proof.
  intros Hidx Hvs Hl Hl' Hmod. split.
  - assert (Hsl : scan_label label = scan_label label')
      by (rewrite !scan_label_mod; exact Hmod).
    destruct (parse_request json_parse request) as [[[id st] et]|e] eqn:Hp.
    2:{ rewrite !(Process_parse_error _ _ _ e Hp). reflexivity. }
    destruct (db_unique_index db !! (ACCOUNT_LABEL, ACCOUNT_ID, id)) as [vid|] eqn:Hi.
    2:{ unfold Process. rewrite Hp.
        rewrite (aggregate_no_vertex db id st et Hi).
        rewrite Hidx in Hi. rewrite (aggregate_no_vertex db' id st et Hi). reflexivity. }
    destruct (db_vertices db !! vid) as [v|] eqn:Hv.
    2:{ unfold Process, aggregate, tbind, CreateReadTxn, GetVertexByUniqueIndex,
          GetVertexIterator, store_call, lift, vit_GetId, vit_IsValid.
        rewrite Hp, <- Hidx, <- Hvs, Hi. cbn [vit_cur vit_vertices]. rewrite Hv.
        reflexivity. }
    rewrite (Process_ok json_parse db request id st et vid v label Hp Hi Hv Hl).
    rewrite Hidx in Hi. rewrite Hvs in Hv.
    rewrite (Process_ok json_parse db' request id st et vid v label' Hp Hi Hv Hl').
    rewrite Hsl. reflexivity.
  - intros Hr. rewrite scan_label_mod. apply Z.mod_small. exact Hr.
Qed.

Lemma label_id_modulo_65536_witness :
  Process (parse_as (demo_request 42 100 200))
    (mkGraphDB (<[(ACCOUNT_LABEL, ACCOUNT_ID, 42) := 7]> ∅) (<[TRANSFER_LABEL := 3]> ∅)
       (<[7 := mkVertexData [transfer_out 8 0 150 10%float] []]> ∅)) "request"
  = Process (parse_as (demo_request 42 100 200))
      (mkGraphDB (<[(ACCOUNT_LABEL, ACCOUNT_ID, 42) := 7]> ∅) (<[TRANSFER_LABEL := 65539]> ∅)
         (<[7 := mkVertexData [transfer_out 8 0 150 10%float] []]> ∅)) "request"
  /\ (0 <= 3 < 65536 -> scan_label 3 = 3).
Proof.
  apply (label_id_modulo_65536 (parse_as (demo_request 42 100 200))
           (mkGraphDB (<[(ACCOUNT_LABEL, ACCOUNT_ID, 42) := 7]> ∅)
              (<[TRANSFER_LABEL := 3]> ∅)
              (<[7 := mkVertexData [transfer_out 8 0 150 10%float] []]> ∅))
           (mkGraphDB (<[(ACCOUNT_LABEL, ACCOUNT_ID, 42) := 7]> ∅)
              (<[TRANSFER_LABEL := 65539]> ∅)
              (<[7 := mkVertexData [transfer_out 8 0 150 10%float] []]> ∅))
           "request" 3 65539); reflexivity.
Defined.

(** ** The outcomes of [Process] *)

(** [Process] returns true exactly when the request parses, its id is
    under the Account index, the indexed vertex is in the store and the
    edge type transfer is declared; the response is then the six-column
    header with exactly one record. *)
Theorem Process_returns_true_iff (json_parse : string -> result json) (db : GraphDB)
    (request : string) :
  ((exists response, fst (Process json_parse db request) = Returned true response)
   <-> (exists id start_time end_time vid,
          parse_request json_parse request = Ok (id, start_time, end_time)
          /\ db_unique_index db !! (ACCOUNT_LABEL, ACCOUNT_ID, id) = Some vid
          /\ is_Some (db_vertices db !! vid)
          /\ is_Some (db_edge_labels db !! TRANSFER_LABEL)))
  /\ (forall response,
        fst (Process json_parse db request) = Returned true response ->
        exists r, response = ResultDump result_header [r]
                  /\ emitted (Process json_parse db request) = Some r).
Proof.
  destruct (parse_request json_parse request) as [[[id st] et]|e] eqn:Hp.
  2:{ rewrite (Process_parse_error _ _ _ e Hp). simpl. split; [split|].
      - intros [? ?]. discriminate.
      - intros (? & ? & ? & ? & ? & _). discriminate.
      - intros ? ?. discriminate. }
  destruct (db_unique_index db !! (ACCOUNT_LABEL, ACCOUNT_ID, id)) as [vid|] eqn:Hi.
  2:{ unfold Process. rewrite Hp, (aggregate_no_vertex db id st et Hi). simpl.
      split; [split|].
      - intros [? ?]. discriminate.
      - intros (? & ? & ? & ? & [= <- <- <-] & Hi' & _). congruence.
      - intros ? ?. discriminate. }
  destruct (db_vertices db !! vid) as [v|] eqn:Hv.
  2:{ destruct (aggregate_dangling db id st et vid Hi Hv) as [tr Htr].
      unfold Process. rewrite Hp, Htr. simpl. split; [split|].
      - intros [? ?]. discriminate.
      - intros (? & ? & ? & ? & [= <- <- <-] & Hi' & [? Hv'] & _).
        rewrite Hi in Hi'. injection Hi' as <-. congruence.
      - intros ? ?. discriminate. }
  destruct (db_edge_labels db !! TRANSFER_LABEL) as [label|] eqn:Hl.
  2:{ unfold Process. rewrite Hp, (aggregate_no_label db id st et vid v Hi Hv Hl). simpl.
      split; [split|].
      - intros [? ?]. discriminate.
      - intros (? & ? & ? & ? & _ & _ & _ & [? ?]). discriminate.
      - intros ? ?. discriminate. }
  rewrite (Process_ok json_parse db request id st et vid v label Hp Hi Hv Hl). simpl.
  split; [split|].
  - intros _. exists id, st, et, vid. rewrite Hv. repeat split; eauto.
  - intros _. eauto.
  - intros response [= <-]. eexists. split; reflexivity.
Qed.

(** [Process] returns false only for a request that failed to parse: the
    response is then the message of the parse error and no store call was
    made.  Once the read transaction is open, [Process] either returns true
    or an exception leaves it. *)
Theorem returned_false_means_parse_error (json_parse : string -> result json)
    (db : GraphDB) (request : string) (response : Response) :
  fst (Process json_parse db request) = Returned false response ->
  exists e,
    parse_request json_parse request = Throw e
    /\ response = JsonMsg ("json parse error: " +:+ what e)
    /\ snd (Process json_parse db request) = [].
Proof.
  unfold Process.
  destruct (parse_request json_parse request) as [[[id st] et]|e] eqn:Hp.
  - destruct (aggregate db id st et []) as [tr [[o i]|e]]; discriminate.
  - simpl. intros [= <-]. exists e. auto.
Qed.

Lemma returned_false_means_parse_error_witness :
  exists e,
    parse_request (parse_as (JObj [("id", JStr "42"); ("startTime", JInt 100);
                                   ("endTime", JInt 200)])) "request" = Throw e
    /\ JsonMsg "json parse error: type must be number: id"
       = JsonMsg ("json parse error: " +:+ what e)
    /\ snd (Process (parse_as (JObj [("id", JStr "42"); ("startTime", JInt 100);
                                     ("endTime", JInt 200)]))
              (demo_db [] []) "request") = [].
Proof.
  apply (returned_false_means_parse_error
           (parse_as (JObj [("id", JStr "42"); ("startTime", JInt 100);
                            ("endTime", JInt 200)]))
           (demo_db [] []) "request").
  reflexivity.
Defined.



(** The record of an answer has the six fields of the header, in the
    order of the header, each with a value of the type the header declares
    for it. *)
Theorem record_matches_header (json_parse : string -> result json) (db : GraphDB)
    (request : string) (r : Record_) :
  emitted (Process json_parse db request) = Some r ->
  fst (Process json_parse db request) = Returned true (ResultDump result_header [r])
  /\ map (fun kv => (fst kv, field_type (snd kv))) r = result_header.
Proof.
  intros Hr.
  destruct (Process_emitted json_parse db request r Hr)
    as (id & st & et & vid & v & label & Hp & Hi & Hv & Hl & ->).
  rewrite (Process_ok json_parse db request id st et vid v label Hp Hi Hv Hl).
  split; reflexivity.
Qed.

Lemma record_matches_header_witness :
  fst (Process (parse_as (demo_request 42 100 200))
         (demo_db [transfer_out 8 0 150 10%float] []) "request")
  = Returned true
      (ResultDump result_header
         [result_record (mkAcc 10%float 10%float 1) (mkAcc 0%float (-1)%float 0)])
  /\ map (fun kv => (fst kv, field_type (snd kv)))
       (result_record (mkAcc 10%float 10%float 1) (mkAcc 0%float (-1)%float 0))
     = result_header.
Proof.
  apply (record_matches_header (parse_as (demo_request 42 100 200))
           (demo_db [transfer_out 8 0 150 10%float] []) "request").
  vm_compute. reflexivity.
Defined.

(** ** Bounds of the count *)

(** With fewer than 2^63 edges in a direction, whatever their order, the
    emitted count of the direction is at least 0 and at most the number of
    edges of the vertex in that direction; and when it is 0 the emitted sum
    is 0 and the emitted maximum is -1. *)
Theorem count_bounds (json_parse : string -> result json) (db : GraphDB)
    (request : string) (id start_time end_time vid label : Z) (v : VertexData)
    (d : Direction) :
  parse_request json_parse request = Ok (id, start_time, end_time) ->
  db_unique_index db !! (ACCOUNT_LABEL, ACCOUNT_ID, id) = Some vid ->
  db_vertices db !! vid = Some v ->
  db_edge_labels db !! TRANSFER_LABEL = Some label ->
  Z.of_nat (length (dir_edges d v)) < 2 ^ 63 ->
  exists r n,
    emitted (Process json_parse db request) = Some r
    /\ get_field (num_field d) r = Some (FD_Int64 n)
    /\ 0 <= n <= Z.of_nat (length (dir_edges d v))
    /\ (n = 0 ->
        get_field (sum_field d) r = Some (FD_Double 0%float)
        /\ get_field (max_field d) r = Some (FD_Double (-1)%float)).
Proof.
  intros Hp Hi Hv Hl Hlen.
  destruct (Process_fields json_parse db request id start_time end_time vid label v d
              Hp Hi Hv Hl) as (r & Hr & Hs & Hm & Hn).
  exists r. eexists. split; [exact Hr|]. split; [exact Hn|].
  simpl acc_count. rewrite (raw_count_exact _ _ _ _ _ Hlen).
  pose proof (window_length d (scan_label label) start_time end_time (dir_edges d v)) as Hw.
  split; [lia|].
  intros H0.
  assert (Hnil : window d (scan_label label) start_time end_time (dir_edges d v) = []).
  { destruct (window d (scan_label label) start_time end_time (dir_edges d v));
      [reflexivity | simpl in H0; lia]. }
  rewrite (finalize_empty d _ _ _ _ Hnil) in Hs, Hm. auto.
Qed.

Lemma count_bounds_witness :
  exists r n,
    emitted (Process (parse_as (demo_request 42 100 200))
               (demo_db [transfer_out 8 0 250 5%float; transfer_out 9 1 150 10%float] [])
               "request") = Some r
    /\ get_field (num_field OutDir) r = Some (FD_Int64 n)
    /\ 0 <= n <= Z.of_nat (length (dir_edges OutDir
                                     (mkVertexData [transfer_out 8 0 250 5%float;
                                                    transfer_out 9 1 150 10%float] [])))
    /\ (n = 0 ->
        get_field (sum_field OutDir) r = Some (FD_Double 0%float)
        /\ get_field (max_field OutDir) r = Some (FD_Double (-1)%float)).
Proof.
  apply (count_bounds (parse_as (demo_request 42 100 200))
           (demo_db [transfer_out 8 0 250 5%float; transfer_out 9 1 150 10%float] [])
           "request" 42 100 200 7 3
           (mkVertexData [transfer_out 8 0 250 5%float; transfer_out 9 1 150 10%float] [])
           OutDir); reflexivity.
Defined.

(** ** Splitting a window *)

Lemma filter_window_split (lid a b c : Z) (l : list Edge) :
  a < b < c ->
  length (filter (in_window lid a c) l)
  = (length (filter (in_window lid a b) l)
     + length (filter (at_time lid b) l)
     + length (filter (in_window lid b c) l))%nat.
Proof.
  intros Habc. induction l as [|e l IH]; [reflexivity|].
  rewrite !filter_cons.
  repeat case_decide; simpl; rewrite ?IH; try lia;
    unfold in_window, at_time in *; exfalso; lia.
Qed.

Lemma count_of_window (d : Direction) (lid start_time end_time : Z) (es : list Edge) :
  store_ordered d es ->
  Z.of_nat (length es) < 2 ^ 63 ->
  acc_count (finalize (raw d lid start_time end_time es))
  = Z.of_nat (length (filter (in_window lid start_time end_time) es)).
Proof.
  intros Hord Hlen. simpl.
  rewrite (raw_count_exact _ _ _ _ _ Hlen), (window_ordered d _ _ _ _ Hord).
  reflexivity.
Qed.

(** Both ends of the window are open, so splitting a window loses the
    edges on the cut: with an edge list in the order of the store (fewer
    than 2^63 edges) and a < b < c, the count for the window (a, c) is the
    count for (a, b) plus the count for (b, c) plus the number of edges of
    the label whose timestamp is exactly b. *)
Theorem counts_of_split_window (json_parse : string -> result json) (db : GraphDB)
    (req_ac req_ab req_bc : string) (id a b c vid label : Z) (v : VertexData)
    (d : Direction) :
  parse_request json_parse req_ac = Ok (id, a, c) ->
  parse_request json_parse req_ab = Ok (id, a, b) ->
  parse_request json_parse req_bc = Ok (id, b, c) ->
  db_unique_index db !! (ACCOUNT_LABEL, ACCOUNT_ID, id) = Some vid ->
  db_vertices db !! vid = Some v ->
  db_edge_labels db !! TRANSFER_LABEL = Some label ->
  store_ordered d (dir_edges d v) ->
  Z.of_nat (length (dir_edges d v)) < 2 ^ 63 ->
  a < b < c ->
  exists r_ac r_ab r_bc n_ac n_ab n_bc,
    emitted (Process json_parse db req_ac) = Some r_ac
    /\ emitted (Process json_parse db req_ab) = Some r_ab
    /\ emitted (Process json_parse db req_bc) = Some r_bc
    /\ get_field (num_field d) r_ac = Some (FD_Int64 n_ac)
    /\ get_field (num_field d) r_ab = Some (FD_Int64 n_ab)
    /\ get_field (num_field d) r_bc = Some (FD_Int64 n_bc)
    /\ n_ac = n_ab + n_bc
              + Z.of_nat (length (filter (at_time (scan_label label) b) (dir_edges d v))).
Proof.
  intros Hac Hab Hbc Hi Hv Hl Hord Hlen Habc.
  destruct (Process_fields json_parse db req_ac id a c vid label v d Hac Hi Hv Hl)
    as (r1 & Hr1 & _ & _ & Hn1).
  destruct (Process_fields json_parse db req_ab id a b vid label v d Hab Hi Hv Hl)
    as (r2 & Hr2 & _ & _ & Hn2).
  destruct (Process_fields json_parse db req_bc id b c vid label v d Hbc Hi Hv Hl)
    as (r3 & Hr3 & _ & _ & Hn3).
  rewrite (count_of_window d (scan_label label) a c _ Hord Hlen) in Hn1.
  rewrite (count_of_window d (scan_label label) a b _ Hord Hlen) in Hn2.
  rewrite (count_of_window d (scan_label label) b c _ Hord Hlen) in Hn3.
  exists r1, r2, r3. eexists _, _, _.
  repeat (split; [eassumption|]).
  rewrite (filter_window_split (scan_label label) a b c _ Habc). lia.
Qed.

Lemma counts_of_split_window_witness :
  exists r_ac r_ab r_bc n_ac n_ab n_bc,
    emitted (Process (fun s => if String.eqb s "ac" then Ok (demo_request 42 100 200)
                               else if String.eqb s "ab" then Ok (demo_request 42 100 150)
                               else Ok (demo_request 42 150 200))
               (demo_db [transfer_out 8 0 120 1%float; transfer_out 8 1 150 2%float;
                         transfer_out 9 2 150 4%float; transfer_out 9 3 180 8%float] [])
               "ac") = Some r_ac
    /\ emitted (Process (fun s => if String.eqb s "ac" then Ok (demo_request 42 100 200)
                                  else if String.eqb s "ab" then Ok (demo_request 42 100 150)
                                  else Ok (demo_request 42 150 200))
                  (demo_db [transfer_out 8 0 120 1%float; transfer_out 8 1 150 2%float;
                            transfer_out 9 2 150 4%float; transfer_out 9 3 180 8%float] [])
                  "ab") = Some r_ab
    /\ emitted (Process (fun s => if String.eqb s "ac" then Ok (demo_request 42 100 200)
                                  else if String.eqb s "ab" then Ok (demo_request 42 100 150)
                                  else Ok (demo_request 42 150 200))
                  (demo_db [transfer_out 8 0 120 1%float; transfer_out 8 1 150 2%float;
                            transfer_out 9 2 150 4%float; transfer_out 9 3 180 8%float] [])
                  "bc") = Some r_bc
    /\ get_field (num_field OutDir) r_ac = Some (FD_Int64 n_ac)
    /\ get_field (num_field OutDir) r_ab = Some (FD_Int64 n_ab)
    /\ get_field (num_field OutDir) r_bc = Some (FD_Int64 n_bc)
    /\ n_ac = n_ab + n_bc
              + Z.of_nat (length (filter (at_time (scan_label 3) 150)
                                    (dir_edges OutDir
                                       (mkVertexData
                                          [transfer_out 8 0 120 1%float;
                                           transfer_out 8 1 150 2%float;
                                           transfer_out 9 2 150 4%float;
                                           transfer_out 9 3 180 8%float] [])))).
Proof.
  apply (counts_of_split_window
           (fun s => if String.eqb s "ac" then Ok (demo_request 42 100 200)
                     else if String.eqb s "ab" then Ok (demo_request 42 100 150)
                     else Ok (demo_request 42 150 200))
           (demo_db [transfer_out 8 0 120 1%float; transfer_out 8 1 150 2%float;
                     transfer_out 9 2 150 4%float; transfer_out 9 3 180 8%float] [])
           "ac" "ab" "bc" 42 100 150 200 7 3
           (mkVertexData [transfer_out 8 0 120 1%float; transfer_out 8 1 150 2%float;
                          transfer_out 9 2 150 4%float; transfer_out 9 3 180 8%float] [])
           OutDir); try reflexivity.
  - split; repeat constructor.
  - lia.
Defined.

(** ** What a scan does to its cursor *)

Lemma visit_steps (lid start_time end_time : Z) (es : list Edge) :
  (length (fst (visit lid start_time end_time es))
   <= snd (visit lid start_time end_time es) <= length es)%nat.
Proof.
  induction es as [|e es IH]; simpl; [lia|].
  destruct (e_lid e =? lid); [|simpl; lia].
  destruct (visit lid start_time end_time es) as [c n]. simpl in IH.
  destruct (e_timestamp e =? start_time); [simpl; lia|].
  destruct (e_timestamp e >=? end_time); simpl; lia.
Qed.

(** A scan from a cursor as the constructor leaves it never raises, never
    changes the edge list or the label of the cursor, leaves its flag in
    agreement with the raw cursor, and moves the cursor forward only,
    never past the end of the list; with fewer than 2^63 edges the count is
    at most the number of positions the cursor moved.  On a cursor that is
    not valid the scan returns the zero accumulators and the cursor as it
    was. *)
Theorem scan_moves_forward (d : Direction) (start_time end_time lid : Z)
    (es : list Edge) (pos : nat) :
  (exists a it',
     scan start_time end_time
       (mkLabeled (@mkEdgeIterator d es pos) lid (label_at es pos lid)) = Ok (a, it')
     /\ it_edges (base it') = es
     /\ lid_ it' = lid
     /\ consistent it'
     /\ (pos <= it_pos (base it') <= Nat.max pos (length es))%nat
     /\ (Z.of_nat (length es) < 2 ^ 63 ->
         0 <= acc_count a <= Z.of_nat (it_pos (base it') - pos)))
  /\ (forall it : LabeledEdgeIterator d,
        IsValid it = false -> scan start_time end_time it = Ok (acc0, it)).
Proof.
  split.
  - rewrite scan_visit.
    pose proof (visit_steps lid start_time end_time (drop pos es)) as [Hc Hs].
    rewrite length_drop in Hs.
    eexists _, _. split; [reflexivity|]. simpl.
    split; [reflexivity|]. split; [reflexivity|].
    split; [reflexivity|]. split; [lia|].
    intros Hlen.
    pose proof (fold_accum_count (fst (visit lid start_time end_time (drop pos es))) acc0)
      as Hcount.
    rewrite <- (fold_accum_count_wrapped _ acc0 eq_refl) in Hcount.
    rewrite Hcount. simpl. rewrite to_int64_small; lia.
  - intros it Hv. unfold scan. simpl. rewrite Hv. reflexivity.
Qed.

(** ** The factories over a vertex iterator *)


